(** * SkyPortal front-end components

    Filter form, data-sharing form and comment list.

    A shallow embedding of the logic of three React components

      - [SourceTableFilterForm.jsx]  (the source filter form),
      - [ShareDataForm.jsx]          (the data-sharing form),
      - [CommentList.jsx]            (the comment list),

    together with the small part of the JavaScript and form-library
    semantics that their handlers rely on. *)

From Stdlib Require Import ZArith NArith Ascii String.
From stdpp Require Import base decidable list sorting strings gmap.

Local Open Scope N_scope.

(** ** JavaScript values used by the components *)

Module JS.

(** A JavaScript string is a sequence of UTF-16 code units, each below
    65536. *)
Definition jsstring : Type := list N.

(** A source-code literal whose characters are all ASCII. *)
Definition lit (s : string) : jsstring :=
  (λ a, N_of_ascii a) <$> list_ascii_of_string s.

(** [x < y] on strings: the first differing code unit decides, and a proper
    prefix is smaller. This is the order of the default comparator of
    [Array.prototype.sort]. *)
Fixpoint str_ltb (x y : jsstring) : bool :=
  match x, y with
  | _, [] => false
  | [], _ :: _ => true
  | m :: x', n :: y' =>
      if m <? n then true else if n <? m then false else str_ltb x' y'
  end.

Definition str_lt (x y : jsstring) : Prop := str_ltb x y = true.
Definition str_le (x y : jsstring) : Prop := str_ltb y x = false.

Global Instance str_le_dec x y : Decision (str_le x y) :=
  decide (str_ltb y x = false).

(** [Array.from(new Set(arr))]: the elements of [arr] in order of first
    occurrence. [Set.prototype.add] appends a value that is not yet
    present and ignores one that is. *)
Definition Set_add `{EqDecision A} (s : list A) (x : A) : list A :=
  if bool_decide (x ∈ s) then s else s ++ [x].

Definition new_Set `{EqDecision A} (arr : list A) : list A :=
  foldl Set_add [] arr.

(** [arr.sort()] on an array of strings. The algorithm is left open by the
    language; any sorting algorithm yields the same array when the
    elements are pairwise distinct, which is how the components use it. *)
Definition sort (arr : list jsstring) : list jsstring :=
  merge_sort str_le arr.

(** [arr.indexOf(v) === -1] *)
Definition not_indexOf `{EqDecision A} (arr : list A) (v : A) : bool :=
  bool_decide (v ∉ arr).

(** [arr.includes(v)] *)
Definition includes `{EqDecision A} (arr : list A) (v : A) : bool :=
  bool_decide (v ∈ arr).

(** Code points of a string: a lead surrogate followed by a trail surrogate
    is one supplementary code point, every other code unit stands for
    itself. *)
Definition is_lead (c : N) : bool := (55296 <=? c) && (c <=? 56319).
Definition is_trail (c : N) : bool := (56320 <=? c) && (c <=? 57343).

Fixpoint code_points (s : jsstring) : list N :=
  match s with
  | [] => []
  | c :: s' =>
      match s' with
      | d :: s'' =>
          if is_lead c && is_trail d
          then ((c - 55296) * 1024 + (d - 56320) + 65536) :: code_points s''
          else c :: code_points s'
      | [] => [c]
      end
  end.

(** Order by code points. *)
Definition cp_lt (x y : jsstring) : Prop :=
  str_ltb (code_points x) (code_points y) = true.

Definition surrogate_free (s : jsstring) : Prop :=
  Forall (λ c, is_lead c = false) s.

End JS.

Import JS.

(** ** Exceptions and results *)

Inductive exn : Type :=
  | TypeError (message : string)
  | Rejected (reason : jsstring).

Inductive result (A : Type) : Type :=
  | Ok (a : A)
  | Throw (e : exn).
Arguments Ok {A} a.
Arguments Throw {A} e.

Global Instance result_bind : MBind result := λ A B k r,
  match r with
  | Ok a => k a
  | Throw e => Throw e
  end.

Global Instance exn_eq_dec : EqDecision exn.
Proof. solve_decision. Defined.

(** ** Groups *)

Module Group.
(** A group as the store and the [groups] prop hold it. *)
Record t : Type := { id : Z; name : jsstring }.

Global Instance eq_dec : EqDecision t.
Proof. solve_decision. Defined.
End Group.

(** ** The form library

    The components keep their fields in the store returned by [useForm] of
    the form library (react-hook-form). This module states the behaviour of
    the operations the components call: [getValues], [handleSubmit], [reset]
    and the [rules] of a registered field.

    Releases of the library differ in one point that matters here: whether
    the rule [required] rejects an empty array, or only the empty text and
    a missing value. The flag [requiredOnArrays] stands for the release in
    use; the properties below hold for both. *)

Module RHF.

(** A field value: the text of an input element, the state of a checkbox,
    or the array held by a multiple select or an autocomplete. *)
Inductive value : Type :=
  | VStr (s : jsstring)
  | VBool (b : bool)
  | VStrs (l : list jsstring)
  | VInts (l : list Z)
  | VGroups (l : list Group.t).

Global Instance value_eq_dec : EqDecision value.
Proof. solve_decision. Defined.

(** [rules={{ required, validate }}]. The [validate] function is called
    with the values of the form at the time of validation, which is what
    [getValues] returns inside it. *)
Record Rules : Type := {
  required : bool;
  validate : option (gmap string value → result bool);
}.

Definition no_rules : Rules := {| required := false; validate := None |}.

(** A registered field: an input registered through [inputRef={register}]
    or a [Controller]. An input element starts out with the empty text. *)
Record Field : Type := {
  name : string;
  defaultValue : value;
  rules : Rules;
}.

(** The store of [useForm]: current values and the errors of the last
    validation, both keyed by field name. The error of a field is the
    name of the rule that failed. *)
Record Form : Type := {
  fieldValues : gmap string value;
  errors : gmap string string;
}.

Definition getValues (form : Form) : gmap string value := fieldValues form.

Definition defaultValues (fields : list Field) : gmap string value :=
  list_to_map ((λ f, (name f, defaultValue f)) <$> fields).

(** [useForm()] followed by the registration of the rendered fields. *)
Definition useForm (fields : list Field) : Form :=
  {| fieldValues := defaultValues fields; errors := ∅ |}.

(** A controlled or registered field takes a new value. *)
Definition setValue (n : string) (v : value) (form : Form) : Form :=
  {| fieldValues := <[n := v]> (fieldValues form); errors := errors form |}.

(** What the [required] rule regards as no value. *)
Definition isEmpty (requiredOnArrays : bool) (v : option value) : bool :=
  match v with
  | None => true
  | Some (VStr s) => bool_decide (s = [])
  | Some (VBool b) => negb b
  | Some (VStrs l) => requiredOnArrays && bool_decide (l = [])
  | Some (VInts l) => requiredOnArrays && bool_decide (l = [])
  | Some (VGroups l) => requiredOnArrays && bool_decide (l = [])
  end.

(** Validation of one field: [required] is checked first, and [validate]
    only runs when it passed. *)
Definition validateField (requiredOnArrays : bool)
    (vals : gmap string value) (f : Field) : result (option string) :=
  if required (rules f) && isEmpty requiredOnArrays (vals !! name f)
  then Ok (Some "required")
  else
    match validate (rules f) with
    | None => Ok None
    | Some check =>
        ok ← check vals;
        Ok (if ok : bool then None else Some "validate")
    end.

Fixpoint validateFields (requiredOnArrays : bool)
    (vals : gmap string value) (fields : list Field)
    : result (gmap string string) :=
  match fields with
  | [] => Ok ∅
  | f :: fields' =>
      e ← validateField requiredOnArrays vals f;
      errs ← validateFields requiredOnArrays vals fields';
      Ok (match e with
          | Some type => <[name f := type]> errs
          | None => errs
          end)
  end.

(** What the handler made by [handleSubmit] has done when it settles. *)
Inductive Submission (R : Type) : Type :=
  | Invalid (errs : gmap string string)
  | Valid (returned : R).
Arguments Invalid {R} errs.
Arguments Valid {R} returned.

Record Submitted (R : Type) : Type := {
  form_after : Form;
  calls : list (gmap string value);
  settled : result (Submission R);
}.
Arguments form_after {R} _.
Arguments calls {R} _.
Arguments settled {R} _.

(** [handleSubmit(callback)] applied to a submit event: the registered
    fields are validated; without errors [callback] receives the values,
    and whatever it throws or rejects with is not caught; with errors they
    are stored and [callback] is not called. [calls] lists the arguments
    [callback] was called with. *)
Definition handleSubmit {R} (requiredOnArrays : bool) (fields : list Field)
    (callback : gmap string value → result R) (form : Form) : Submitted R :=
  let fieldValues := getValues form in
  match validateFields requiredOnArrays fieldValues fields with
  | Throw e =>
      {| form_after := form; calls := []; settled := Throw e |}
  | Ok fieldErrors =>
      if bool_decide (fieldErrors = ∅)
      then
        {| form_after := {| fieldValues := fieldValues; errors := ∅ |};
           calls := [fieldValues];
           settled := (r ← callback fieldValues; Ok (Valid r)) |}
      else
        {| form_after :=
             {| fieldValues := fieldValues; errors := fieldErrors |};
           calls := [];
           settled := Ok (Invalid fieldErrors) |}
  end.

(** [reset(values)]: every registered field takes its value in [values],
    or its default value when [values] has none, and the errors are
    cleared. [reset()] is [reset] with no values. *)
Definition reset (fields : list Field) (values : gmap string value)
    (form : Form) : Form :=
  {| fieldValues := values ∪ defaultValues fields; errors := ∅ |}.

End RHF.

Import RHF.

(** ** Data supplied to the filter form *)

Module ClassOption.
(** An entry of what [allowedClasses] returns; only [class] is read. *)
Record t : Type := { class : jsstring }.
End ClassOption.

Module Taxonomy.
(** An entry of [state.taxonomies.taxonomyList]. The hierarchy is only
    handed to [allowedClasses]. *)
Record t (Hierarchy : Type) : Type := {
  name : jsstring;
  isLatest : bool;
  hierarchy : Hierarchy;
}.
Arguments name {Hierarchy} _.
Arguments isLatest {Hierarchy} _.
Arguments hierarchy {Hierarchy} _.
End Taxonomy.

Inductive fontWeight : Type :=
  | fontWeightRegular
  | fontWeightMedium.

(** [getMultiselectStyles(value, selectedValues, theme)] *)
Definition getMultiselectStyles `{EqDecision A}
    (value : A) (selectedValues : list A) : fontWeight :=
  if not_indexOf selectedValues value
  then fontWeightRegular
  else fontWeightMedium.

(** A rendered [MenuItem]: its value and its style. *)
Record MenuItem (A : Type) : Type := {
  item_value : A;
  item_style : fontWeight;
}.
Arguments item_value {A} _.
Arguments item_style {A} _.

(** ** SourceTableFilterForm.jsx *)

Module SourceTableFilterForm.
Section SourceTableFilterForm.

(** [allowedClasses] is imported from [./ClassificationForm]. *)
Context {Hierarchy : Type}.
Variable allowedClasses : Hierarchy → list ClassOption.t.

(** The release of the form library, see [RHF]. *)
Variable requiredOnArrays : bool.

(** The props of the component. [groups] is [None] when the prop is
    [undefined], which is its default. *)
Record Props : Type := {
  handleFilterSubmit : gmap string value → result unit;
  groups : option (list Group.t);
}.

(** The state kept by the hooks of the component. *)
Record State : Type := {
  selectedClassifications : list jsstring;
  selectedGroups : list Z;
  form : Form;
}.

(** Unique classification names, in alphabetical order. *)
Definition classifications (taxonomyList : list (Taxonomy.t Hierarchy))
    : list jsstring :=
  let latestTaxonomyList := List.filter Taxonomy.isLatest taxonomyList in
  let classifications :=
    foldl (λ classifications taxonomy,
             let currentClasses :=
               (λ option,
                  Taxonomy.name taxonomy ++ lit ": "
                  ++ ClassOption.class option)
                 <$> allowedClasses (Taxonomy.hierarchy taxonomy) in
             classifications ++ currentClasses)
          [] latestTaxonomyList in
  sort (new_Set classifications).

(** [groups.forEach((g) => { groupIDToName[g.id] = g.name; })]: the method
    call throws when [groups] is [undefined]. *)
Definition groupIDToName (groups : option (list Group.t))
    : result (gmap Z jsstring) :=
  match groups with
  | None => Throw (TypeError "Cannot read property 'forEach' of undefined")
  | Some groups =>
      Ok (foldl (λ m g, <[Group.id g := Group.name g]> m) ∅ groups)
  end.

(** [validateGroups]: [getValues().groupIds.length !== 0]. Reading [length]
    of a field that is not in the form throws. *)
Definition validateGroups (formState : gmap string value) : result bool :=
  match formState !! "groupIds" with
  | Some (VInts l) => Ok (negb (bool_decide (l = [])))
  | Some (VGroups l) => Ok (negb (bool_decide (l = [])))
  | Some (VStrs l) => Ok (negb (bool_decide (l = [])))
  | Some (VStr s) => Ok (negb (bool_decide (s = [])))
  | Some (VBool _) => Ok true
  | None => Throw (TypeError "Cannot read property 'length' of undefined")
  end.

(** The names of the [TextField]s registered with [inputRef={register}]. *)
Definition textFields : list string :=
  [ "sourceID"; "ra"; "dec"; "radius"; "startDate"; "endDate";
    "simbadClass"; "minRedshift"; "maxRedshift"; "minPeakMagnitude";
    "maxPeakMagnitude"; "minLatestMagnitude"; "maxLatestMagnitude" ].

Definition textField (n : string) : Field :=
  {| RHF.name := n; defaultValue := VStr []; rules := no_rules |}.

(** The fields the returned element registers, in the order of the source.
    The group selector and its rules are part of the element when [groups]
    is truthy, which every array is. *)
Definition fields (groups : option (list Group.t)) : list Field :=
  (textField <$> [ "sourceID"; "ra"; "dec"; "radius"; "startDate";
                   "endDate"; "simbadClass" ])
  ++ [ {| RHF.name := "classifications"; defaultValue := VStrs [];
          rules := no_rules |} ]
  ++ (textField <$> [ "minRedshift"; "maxRedshift"; "minPeakMagnitude";
                      "maxPeakMagnitude"; "minLatestMagnitude";
                      "maxLatestMagnitude" ])
  ++ [ {| RHF.name := "hasTNSname"; defaultValue := VBool false;
          rules := no_rules |};
       {| RHF.name := "hasSpectrum"; defaultValue := VBool false;
          rules := no_rules |} ]
  ++ match groups with
     | Some _ =>
         [ {| RHF.name := "groupIds"; defaultValue := VInts [];
              rules := {| required := true;
                          validate := Some validateGroups |} |} ]
     | None => []
     end.

(** What a render pass produces: the registered fields, the menu entries
    of the two selects with their emphasis, and the [disabled] attribute
    of the submit button. *)
Record View : Type := {
  registered : list Field;
  classificationItems : list (MenuItem jsstring);
  groupSelect : option (list (MenuItem Z));
  submitDisabled : bool;
}.

(** The body of the component for given props, store and hook state. *)
Definition render (props : Props)
    (taxonomyList : list (Taxonomy.t Hierarchy)) (st : State)
    : result View :=
  let classifications := classifications taxonomyList in
  _ ← groupIDToName (groups props);
  Ok {| registered := fields (groups props);
        classificationItems :=
          (λ classification,
             {| item_value := classification;
                item_style :=
                  getMultiselectStyles classification
                    (selectedClassifications st) |})
            <$> classifications;
        groupSelect :=
          match groups props with
          | Some groups =>
              Some (if bool_decide (0 < length groups)%nat
                    then (λ group,
                            {| item_value := Group.id group;
                               item_style :=
                                 getMultiselectStyles (Group.id group)
                                   (selectedGroups st) |})
                           <$> groups
                    else [])
          | None => None
          end;
        submitDisabled := false |}.

(** The state of the first render: both [useState([])] and [useForm()]. *)
Definition initial (groups : option (list Group.t)) : State :=
  {| selectedClassifications := [];
     selectedGroups := [];
     form := useForm (fields groups) |}.

(** *** Event handlers *)

Definition with_form (f : Form → Form) (st : State) : State :=
  {| selectedClassifications := selectedClassifications st;
     selectedGroups := selectedGroups st;
     form := f (form st) |}.

(** An input registered by reference holds what the user typed. *)
Definition onInput (n : string) (text : jsstring) (st : State) : State :=
  with_form (setValue n (VStr text)) st.

(** [onChange] of the classifications select:
    [setSelectedClassifications(event.target.value);
     onChange(event.target.value)]. *)
Definition onChangeClassifications (value : list jsstring) (st : State)
    : State :=
  {| selectedClassifications := value;
     selectedGroups := selectedGroups st;
     form := setValue "classifications" (VStrs value) (form st) |}.

(** [onChange] of a checkbox: [onChange(event.target.checked)]. *)
Definition onChangeChecked (n : string) (checked : bool) (st : State)
    : State :=
  with_form (setValue n (VBool checked)) st.

(** [onChange] of the group select:
    [setSelectedGroups(event.target.value); return event.target.value].
    The [Controller] takes what the handler returns as the value of the
    field. *)
Definition onChangeGroupIds (value : list Z) (st : State) : State :=
  {| selectedClassifications := selectedClassifications st;
     selectedGroups := value;
     form := setValue "groupIds" (VInts value) (form st) |}.

(** [handleClickReset]: [reset()] and nothing else. *)
Definition handleClickReset (view : View) (st : State) : State :=
  with_form (reset (registered view) ∅) st.

(** [onSubmit={handleSubmit(handleFilterSubmit)}] *)
Definition onSubmit (props : Props) (view : View) (st : State)
    : Submitted unit :=
  handleSubmit requiredOnArrays (registered view) (handleFilterSubmit props)
    (form st).

(** *** Sessions *)

(** What the user can do to the rendered form. A change event of a select
    carries the new array of selected values in [event.target.value]. *)
Inductive Event : Type :=
  | TextInput (n : string) (text : jsstring)
  | ClassificationsChange (value : list jsstring)
  | HasTNSnameChange (checked : bool)
  | HasSpectrumChange (checked : bool)
  | GroupIdsChange (value : list Z)
  | SubmitClick
  | ResetClick.

(** An event reaches a handler when its control is on the page; the
    selected values of a select are values of its menu entries. *)
Definition delivered (view : View) (ev : Event) : bool :=
  match ev with
  | TextInput n _ => bool_decide (n ∈ textFields)
  | ClassificationsChange value =>
      bool_decide (value ⊆ item_value <$> classificationItems view)
  | GroupIdsChange value =>
      match groupSelect view with
      | Some items => bool_decide (value ⊆ item_value <$> items)
      | None => false
      end
  | HasTNSnameChange _ | HasSpectrumChange _ | SubmitClick | ResetClick =>
      true
  end.

(** The handler of an event: the next state and the arguments of the calls
    of [handleFilterSubmit] it made. *)
Definition handle (props : Props) (view : View) (st : State) (ev : Event)
    : State * list (gmap string value) :=
  match ev with
  | TextInput n text => (onInput n text st, [])
  | ClassificationsChange value => (onChangeClassifications value st, [])
  | HasTNSnameChange checked => (onChangeChecked "hasTNSname" checked st, [])
  | HasSpectrumChange checked =>
      (onChangeChecked "hasSpectrum" checked st, [])
  | GroupIdsChange value => (onChangeGroupIds value st, [])
  | SubmitClick =>
      let s := onSubmit props view st in
      (with_form (λ _, form_after s) st, calls s)
  | ResetClick => (handleClickReset view st, [])
  end.

(** One event on the mounted component. A render that throws takes the
    component off the page. *)
Definition step (props : Props)
    (taxonomyList : list (Taxonomy.t Hierarchy))
    (st : State) (ev : Event) : result (State * list (gmap string value)) :=
  view ← render props taxonomyList st;
  Ok (if delivered view ev then handle props view st ev else (st, [])).

Fixpoint run (props : Props) (taxonomyList : list (Taxonomy.t Hierarchy))
    (st : State) (evs : list Event)
    : result (State * list (gmap string value)) :=
  match evs with
  | [] => Ok (st, [])
  | ev :: evs' =>
      r ← step props taxonomyList st ev;
      r' ← run props taxonomyList r.1 evs';
      Ok (r'.1, r.2 ++ r'.2)
  end.

(** Mounting the component is its first render. *)
Definition mount (props : Props)
    (taxonomyList : list (Taxonomy.t Hierarchy)) : result State :=
  _ ← render props taxonomyList (initial (groups props));
  Ok (initial (groups props)).

(** A session: mount, then a sequence of events. *)
Definition session (props : Props)
    (taxonomyList : list (Taxonomy.t Hierarchy)) (evs : list Event)
    : result (State * list (gmap string value)) :=
  st ← mount props taxonomyList;
  run props taxonomyList st evs.

(** *** Notions used to state the properties of the form *)

(** The validation failure of an empty group selection: an error of the
    field [groupIds], and of no other field, raised by the rule [required]
    or, where that rule lets an empty array pass, by [validate]. *)
Definition MissingRequiredSelection : gmap string string :=
  {[ "groupIds" := if requiredOnArrays then "required" else "validate" ]}.

(** A value of [groupIds] that selects no group. *)
Definition noSelection (v : option value) : bool := isEmpty true v.

(** The edit an event makes to the draft: the field and its new value. *)
Definition setField (ev : Event) : option (string * value) :=
  match ev with
  | TextInput n text => Some (n, VStr text)
  | ClassificationsChange v => Some ("classifications", VStrs v)
  | HasTNSnameChange b => Some ("hasTNSname", VBool b)
  | HasSpectrumChange b => Some ("hasSpectrum", VBool b)
  | GroupIdsChange v => Some ("groupIds", VInts v)
  | SubmitClick | ResetClick => None
  end.

(** The value a field has after a sequence of edits: the value of the last
    edit of that field, and [d] if there is none. *)
Fixpoint lastSetField (n : string) (edits : list (string * value))
    (d : option value) : option value :=
  match edits with
  | [] => d
  | (n', v) :: edits' =>
      lastSetField n edits' (if decide (n' = n) then Some v else d)
  end.

(** The events the form offers for a group list and a taxonomy list: input
    into one of its text fields, and selections among its menu entries. *)
Definition offered (gs : list Group.t)
    (taxonomyList : list (Taxonomy.t Hierarchy)) (ev : Event) : bool :=
  match ev with
  | TextInput n _ => bool_decide (n ∈ textFields)
  | ClassificationsChange v =>
      bool_decide (v ⊆ classifications taxonomyList)
  | GroupIdsChange v => bool_decide (v ⊆ Group.id <$> gs)
  | HasTNSnameChange _ | HasSpectrumChange _ | SubmitClick | ResetClick =>
      true
  end.


End SourceTableFilterForm.
End SourceTableFilterForm.

(** The label of a class of a taxonomy, as the template literal builds
    it. *)
Definition label {Hierarchy : Type}
    (t : Taxonomy.t Hierarchy) (o : ClassOption.t) : jsstring :=
  Taxonomy.name t ++ lit ": " ++ ClassOption.class o.

(** ** ShareDataForm.jsx *)

Module ShareDataForm.

(** A photometry point or a spectrum of the store; [onSubmit] reads its
    [id] only. *)
Record Row : Type := { id : Z }.

(** The part of the store the component selects: [state.groups.all],
    [state.photometry] and [state.spectra], the last two keyed by source
    id. *)
Record Store : Type := {
  groups : option (list Group.t);
  photometry : gmap string (list Row);
  spectra : gmap string (list Row);
}.

(** The hooks of the component: the selected row indices of the two
    tables, the submitting flag, and the form with its field [groups]. *)
Record State : Type := {
  selectedPhotRows : list nat;
  selectedSpecRows : list nat;
  isSubmitting : bool;
  form : Form;
}.

Definition setSelectedPhotRows (rows : list nat) (st : State) : State :=
  {| selectedPhotRows := rows;
     selectedSpecRows := selectedSpecRows st;
     isSubmitting := isSubmitting st;
     form := form st |}.

Definition setSelectedSpecRows (rows : list nat) (st : State) : State :=
  {| selectedPhotRows := selectedPhotRows st;
     selectedSpecRows := rows;
     isSubmitting := isSubmitting st;
     form := form st |}.

Definition setIsSubmitting (b : bool) (st : State) : State :=
  {| selectedPhotRows := selectedPhotRows st;
     selectedSpecRows := selectedSpecRows st;
     isSubmitting := b;
     form := form st |}.

Definition with_form (f : Form → Form) (st : State) : State :=
  {| selectedPhotRows := selectedPhotRows st;
     selectedSpecRows := selectedSpecRows st;
     isSubmitting := isSubmitting st;
     form := f (form st) |}.

(** The payload of [sourceActions.shareData]. *)
Record ShareData : Type := {
  groupIDs : list Z;
  photometryIDs : list Z;
  spectrumIDs : list Z;
}.

(** The actions the handler dispatches. *)
Inductive Action : Type :=
  | shareData (data : ShareData)
  | showNotification (message : jsstring).

(** What the share request resolves to; [status] is the field read. *)
Record Response : Type := { status : jsstring }.

(** [validateGroups]: [getValues().groups.length >= 1]. *)
Definition validateGroups (formState : gmap string value) : result bool :=
  match formState !! "groups" with
  | Some (VGroups l) => Ok (bool_decide (1 ≤ length l)%nat)
  | Some (VInts l) => Ok (bool_decide (1 ≤ length l)%nat)
  | Some (VStrs l) => Ok (bool_decide (1 ≤ length l)%nat)
  | Some (VStr s) => Ok (bool_decide (1 ≤ length s)%nat)
  | Some (VBool _) => Ok false
  | None => Throw (TypeError "Cannot read property 'length' of undefined")
  end.

(** The one registered field, the [Controller] named [groups]. *)
Definition fields : list Field :=
  [ {| RHF.name := "groups"; defaultValue := VGroups [];
       rules := {| required := false; validate := Some validateGroups |} |} ].

Definition initial : State :=
  {| selectedPhotRows := [];
     selectedSpecRows := [];
     isSubmitting := false;
     form := useForm fields |}.

(** [rows.map((idx) => table[idx].id)], where [table] is
    [photometry[route.id]] or [spectra[route.id]]. Indexing an undefined
    table and reading [id] of a missing row throw; an empty selection
    reads nothing. *)
Fixpoint selectedIDs (table : option (list Row)) (rows : list nat)
    : result (list Z) :=
  match rows with
  | [] => Ok []
  | idx :: rows' =>
      match table with
      | None => Throw (TypeError "Cannot read property of undefined")
      | Some t =>
          match t !! idx with
          | None => Throw (TypeError "Cannot read property 'id' of undefined")
          | Some row =>
              ids ← selectedIDs table rows';
              Ok (id row :: ids)
          end
      end
  end.

(** [onSubmit] up to its [await]: the state it leaves behind and the
    payload of the share request it dispatched, or what it threw. *)
Definition onSubmit_dispatch (store : Store) (route_id : string)
    (st : State) (groupsFormData : gmap string value)
    : State * result ShareData :=
  match selectedIDs (photometry store !! route_id) (selectedPhotRows st) with
  | Throw e => (st, Throw e)
  | Ok selectedPhotIDs =>
      match selectedIDs (spectra store !! route_id) (selectedSpecRows st) with
      | Throw e => (st, Throw e)
      | Ok selectedSpecIDs =>
          let st := setIsSubmitting true st in
          match groupsFormData !! "groups" with
          | Some (VGroups gs) =>
              (st, Ok {| groupIDs := Group.id <$> gs;
                         photometryIDs := selectedPhotIDs;
                         spectrumIDs := selectedSpecIDs |})
          | _ =>
              (st, Throw (TypeError "groupsFormData.groups.map failed"))
          end
      end
  end.

(** [onSubmit] from the point where the share request has resolved with
    [result], applied to the state of that moment: the next state and the
    actions dispatched. *)
Definition onSubmit_resolved (result : Response) (st : State)
    : State * list Action :=
  let '(st, dispatched) :=
    if bool_decide (status result = lit "success")
    then
      let st := with_form (reset fields {[ "groups" := VGroups [] ]}) st in
      let st := setSelectedPhotRows [] st in
      let st := setSelectedSpecRows [] st in
      (st, [showNotification (lit "Data successfully shared")])
    else (st, [])
  in
  (setIsSubmitting false st, dispatched).

(** What a render pass shows: the loading text, or the page with the
    [disabled] attribute of the submit button and the visibility of the
    text "Processing...". *)
Inductive View : Type :=
  | Loading
  | Page (submitDisabled : bool) (processing : bool).

Definition render (store : Store) (route_id : string) (st : State) : View :=
  if bool_decide ((photometry store !! route_id = None
                   ∧ spectra store !! route_id = None)
                  ∨ groups store = None)
  then Loading
  else Page (isSubmitting st) (isSubmitting st).

(** What the user can do to the page beside submitting: change the row
    selection of a table ([onRowSelectionChange]) or the selected groups
    ([onChange] of the autocomplete). *)
Inductive Event : Type :=
  | PhotRowSelectionChange (rowsSelected : list nat)
  | SpecRowSelectionChange (rowsSelected : list nat)
  | GroupsChange (data : list Group.t).

Definition handle (st : State) (ev : Event) : State :=
  match ev with
  | PhotRowSelectionChange rowsSelected => setSelectedPhotRows rowsSelected st
  | SpecRowSelectionChange rowsSelected => setSelectedSpecRows rowsSelected st
  | GroupsChange data => with_form (setValue "groups" (VGroups data)) st
  end.

(** The selected rows index into the tables. *)
Definition rows_in_tables (store : Store) (route_id : string) (st : State)
    : Prop :=
  (∀ idx, idx ∈ selectedPhotRows st →
          ∃ t, photometry store !! route_id = Some t ∧ is_Some (t !! idx))
  ∧ (∀ idx, idx ∈ selectedSpecRows st →
            ∃ t, spectra store !! route_id = Some t ∧ is_Some (t !! idx)).

End ShareDataForm.

(** ** CommentList.jsx *)

Module CommentList.

(** [state.profile]: the viewing user. *)
Record Profile : Type := {
  username : jsstring;
  roles : list jsstring;
}.

(** A comment of the source; [author] is [author.username]. *)
Record Comment : Type := {
  id : Z;
  author : jsstring;
}.

(** The state of the component: [hoverID], [null] at first. *)
Definition State : Type := option Z.

Definition initial : State := None.

Definition handleMouseHover (id : Z) (userProfile : Profile)
    (author : jsstring) (hoverID : State) : State :=
  if includes (roles userProfile) (lit "Super admin")
     || bool_decide (username userProfile = author)
  then Some id
  else hoverID.

Definition handleMouseLeave (hoverID : State) : State := None.

Inductive display : Type := block | none.

(** The style of the delete button of the comment [id]. *)
Definition deleteButton (hoverID : State) (id : Z) : display :=
  if bool_decide (hoverID = Some id) then block else none.

(** The events of the [span] of a comment. *)
Inductive Event : Type :=
  | MouseOver (c : Comment)
  | MouseOut (c : Comment)
  | Focus (c : Comment)
  | Blur (c : Comment).

Definition comment_of (ev : Event) : Comment :=
  match ev with MouseOver c | MouseOut c | Focus c | Blur c => c end.

Definition handle (userProfile : Profile) (hoverID : State) (ev : Event)
    : State :=
  match ev with
  | MouseOver c | Focus c =>
      handleMouseHover (id c) userProfile (author c) hoverID
  | MouseOut _ | Blur _ => handleMouseLeave hoverID
  end.

Definition run (userProfile : Profile) (evs : list Event) : State :=
  foldl (handle userProfile) initial evs.

(** Whether the viewing user is a super admin or the author of a
    comment. *)
Definition may_delete (userProfile : Profile) (c : Comment) : Prop :=
  lit "Super admin" ∈ roles userProfile ∨ username userProfile = author c.

Global Instance may_delete_dec (userProfile : Profile) (c : Comment) :
  Decision (may_delete userProfile c).
Proof. unfold may_delete. apply _. Defined.

(** [hoverID] is the id of a comment of the list that the user may delete,
    if it is an id at all. *)
Definition hover_allowed (userProfile : Profile) (comments : list Comment)
    (hoverID : State) : Prop :=
  ∀ i, hoverID = Some i →
       ∃ c, c ∈ comments ∧ id c = i ∧ may_delete userProfile c.

End CommentList.

(** ** More of SourceTableFilterForm.jsx: the chips of the group select *)

Module GroupChips.

(** [renderValue] of the group select: one [Chip] for every selected value,
    labelled [groupIDToName[value]]. The label is [None] where the value is
    no key of the object, which React renders as an empty chip. *)
Definition renderValue (groupIDToName : gmap Z jsstring) (selected : list Z)
    : list (option jsstring) :=
  (λ value, groupIDToName !! value) <$> selected.

(** The chips the component shows for a selection. *)
Definition chips (groups : option (list Group.t)) (selected : list Z)
    : result (list (option jsstring)) :=
  groupIDToName ← SourceTableFilterForm.groupIDToName groups;
  Ok (renderValue groupIDToName selected).

(** The last group of a list that carries an id. *)
Definition last_with_id (groups : list Group.t) (i : Z) : option Group.t :=
  List.find (λ g, bool_decide (Group.id g = i)) (reverse groups).

End GroupChips.

(** ** More of ShareDataForm.jsx: the tables, and the page with its submit
    button *)

(** [arr.join(sep)] on an array of strings. *)
Fixpoint join (sep : jsstring) (arr : list jsstring) : jsstring :=
  match arr with
  | [] => []
  | x :: rest =>
      match rest with
      | [] => x
      | _ :: _ => x ++ sep ++ join sep rest
      end
  end.

Module Spectrum.
(** A spectrum of [state.spectra[route.id]], with the fields the table
    reads. *)
Record t : Type := {
  id : Z;
  instrument_name : jsstring;
  observed_at : jsstring;
  groups : list Group.t;
}.
End Spectrum.

Module SpecRow.
(** What [createSpecRow] returns. *)
Record t : Type := {
  id : Z;
  instrument : jsstring;
  observed : jsstring;
  groups : jsstring;
}.
End SpecRow.

Module ShareDataTable.
Section ShareDataTable.

(** JavaScript numbers and [Number(x).toFixed(digits)] are not interpreted:
    the rows hold whatever text [toFixed] gives. *)
Variable Number : Type.
Variable toFixed : Number → nat → jsstring.

(** A photometry point of [state.photometry[route.id]], with the fields the
    table reads; [mag] and [magerr] may be [null]. *)
Record Phot : Type := {
  id : Z;
  mjd : Number;
  mag : option Number;
  magerr : option Number;
  limiting_mag : Number;
  instrument_name : jsstring;
  filter : jsstring;
  groups : list Group.t;
}.

(** What [createPhotRow] returns. *)
Record PhotRow : Type := {
  row_id : Z;
  row_mjd : jsstring;
  row_mag : option jsstring;
  row_magerr : option jsstring;
  row_limiting_mag : jsstring;
  row_instrument : jsstring;
  row_filter : jsstring;
  row_groups : jsstring;
}.

Definition createPhotRow (id : Z) (mjd : Number) (mag magerr : option Number)
    (limiting_mag : Number) (instrument filter groups : jsstring) : PhotRow :=
  {| row_id := id;
     row_mjd := toFixed mjd 3;
     row_mag := match mag with None => None | Some mag => Some (toFixed mag 4) end;
     row_magerr :=
       match magerr with
       | None => None
       | Some magerr => Some (toFixed magerr 4)
       end;
     row_limiting_mag := toFixed limiting_mag 4;
     row_instrument := instrument;
     row_filter := filter;
     row_groups := groups |}.

Definition createSpecRow (id : Z) (instrument observed groups : jsstring)
    : SpecRow.t :=
  {| SpecRow.id := id;
     SpecRow.instrument := instrument;
     SpecRow.observed := observed;
     SpecRow.groups := groups |}.

(** [photRows]: one row per photometry point, and no row while the
    photometry of the source is not in the store. *)
Definition photRows (photometry : option (list Phot)) : list PhotRow :=
  match photometry with
  | Some photometry =>
      (λ phot,
         createPhotRow (id phot) (mjd phot) (mag phot) (magerr phot)
           (limiting_mag phot) (instrument_name phot) (filter phot)
           (join (lit ", ") (Group.name <$> groups phot)))
        <$> photometry
  | None => []
  end.

(** [specRows], likewise. *)
Definition specRows (spectra : option (list Spectrum.t)) : list SpecRow.t :=
  match spectra with
  | Some spectra =>
      (λ spec,
         createSpecRow (Spectrum.id spec) (Spectrum.instrument_name spec)
           (Spectrum.observed_at spec)
           (join (lit ", ") (Group.name <$> Spectrum.groups spec)))
        <$> spectra
  | None => []
  end.

(** What [onSubmit] reads of a photometry point and of a spectrum. *)
Definition phot_row (phot : Phot) : ShareDataForm.Row :=
  {| ShareDataForm.id := id phot |}.

Definition spec_row (spec : Spectrum.t) : ShareDataForm.Row :=
  {| ShareDataForm.id := Spectrum.id spec |}.

End ShareDataTable.
End ShareDataTable.

Module SharePage.
Import ShareDataForm.

(** [onSubmit={handleSubmit(onSubmit)}] on a submit event: the field
    [groups] is validated and [onSubmit] runs, up to its [await], only when
    it passed. The result is the next state and, when [onSubmit] ran, the
    payload it sent or what it threw. *)
Definition submit (requiredOnArrays : bool) (store : Store)
    (route_id : string) (st : State) : State * option (result ShareData) :=
  let s :=
    handleSubmit requiredOnArrays fields
      (λ groupsFormData,
         Ok (onSubmit_dispatch store route_id st groupsFormData))
      (form st) in
  match settled s with
  | Ok (Valid (st', sent)) => (with_form (λ _, form_after s) st', Some sent)
  | Ok (Invalid _) | Throw _ => (with_form (λ _, form_after s) st, None)
  end.

(** The page over time: the state of the component, the number of share
    requests that have not resolved yet, and the payloads sent so far. *)
Record World : Type := {
  state : State;
  pending : nat;
  sent : list ShareData;
}.

Definition start : World :=
  {| state := initial; pending := 0; sent := [] |}.

(** What happens to the page: the user changes a selection, the user
    clicks Submit, or a share request resolves. *)
Inductive PageEvent : Type :=
  | User (ev : Event)
  | SubmitClick
  | Resolved (result : Response).

(** A table hands over indices of its own rows, and is on the page only
    when its data are in the store; the autocomplete is on the page when
    the page is. *)
Definition delivered (store : Store) (route_id : string) (st : State)
    (ev : Event) : bool :=
  match render store route_id st with
  | Loading => false
  | Page _ _ =>
      match ev with
      | PhotRowSelectionChange rows =>
          match photometry store !! route_id with
          | Some t => bool_decide (Forall (λ idx, idx < length t)%nat rows)
          | None => false
          end
      | SpecRowSelectionChange rows =>
          match spectra store !! route_id with
          | Some t => bool_decide (Forall (λ idx, idx < length t)%nat rows)
          | None => false
          end
      | GroupsChange _ => true
      end
  end.

Definition step (requiredOnArrays : bool) (store : Store)
    (route_id : string) (w : World) (ev : PageEvent) : World :=
  match ev with
  | User ev =>
      if delivered store route_id (state w) ev
      then {| state := handle (state w) ev;
              pending := pending w; sent := sent w |}
      else w
  | SubmitClick =>
      match render store route_id (state w) with
      | Page false _ =>
          let '(st, r) := submit requiredOnArrays store route_id (state w) in
          match r with
          | Some (Ok data) =>
              {| state := st; pending := S (pending w);
                 sent := sent w ++ [data] |}
          | Some (Throw _) | None =>
              {| state := st; pending := pending w; sent := sent w |}
          end
      | Page true _ | Loading => w
      end
  | Resolved result =>
      match pending w with
      | O => w
      | S n =>
          {| state := (onSubmit_resolved result (state w)).1;
             pending := n; sent := sent w |}
      end
  end.

Definition run (requiredOnArrays : bool) (store : Store)
    (route_id : string) (w : World) (evs : list PageEvent) : World :=
  foldl (step requiredOnArrays store route_id) w evs.

End SharePage.

(** ** More of CommentList.jsx: the delete button and the emoji names *)

Module CommentActions.
Import CommentList.

(** The events of the list: those of the [span] of a comment, and a click
    on the delete button of a comment, which reaches the button only while
    it is displayed. *)
Inductive Event : Type :=
  | Pointer (ev : CommentList.Event)
  | DeleteClick (c : Comment).

Definition comment_of (ev : Event) : Comment :=
  match ev with
  | Pointer ev => CommentList.comment_of ev
  | DeleteClick c => c
  end.

(** The state is [hoverID] together with the ids for which
    [sourceActions.deleteComment(id)] was dispatched. *)
Definition step (userProfile : Profile) (s : State * list Z) (ev : Event)
    : State * list Z :=
  match ev with
  | Pointer ev => (handle userProfile s.1 ev, s.2)
  | DeleteClick c =>
      match deleteButton s.1 (id c) with
      | block => (s.1, s.2 ++ [id c])
      | none => s
      end
  end.

Definition run (userProfile : Profile) (evs : list Event) : State * list Z :=
  foldl (step userProfile) (initial, []) evs.

(** [\w]: a letter of the basic Latin alphabet, a digit or the
    underscore. *)
Definition is_word (c : N) : bool :=
  ((48 <=? c) && (c <=? 57)) || ((65 <=? c) && (c <=? 90))
  || (c =? 95) || ((97 <=? c) && (c <=? 122)).

(** [text.replace(/:\w+:/gi, f)], read from left to right. [pending] is
    [Some w] after a colon that may open a name and the word characters [w]
    that followed it. A second colon closes the name when [w] is not empty,
    and the search goes on behind it; any other end of [w] leaves the text
    as it is, and a colon that ends an empty [w] may itself open a name. *)
Fixpoint replace_names (f : jsstring → jsstring) (pending : option jsstring)
    (text : jsstring) : jsstring :=
  match text with
  | [] =>
      match pending with
      | None => []
      | Some w => 58 :: w
      end
  | c :: text' =>
      match pending with
      | None =>
          if c =? 58 then replace_names f (Some []) text'
          else c :: replace_names f None text'
      | Some w =>
          if is_word c then replace_names f (Some (w ++ [c])) text'
          else if c =? 58 then
            match w with
            | [] => 58 :: replace_names f (Some []) text'
            | _ :: _ => f (58 :: w ++ [58]) ++ replace_names f None text'
            end
          else 58 :: w ++ c :: replace_names f None text'
      end
  end.

(** [emojiSupport]: a name between colons is replaced by what
    [emoji.getUnicode] gives for it, when that is a non-empty text. *)
Definition emojiSupport (getUnicode : jsstring → option jsstring)
    (text : jsstring) : jsstring :=
  replace_names
    (λ name,
       match getUnicode name with
       | Some (c :: u) => c :: u
       | Some [] | None => name
       end)
    None text.

End CommentActions.

(** ** Candidate.jsx *)

Module Candidate.

(** An id as the component compares it: [null], [undefined] or a text. *)
Inductive jsid : Type :=
  | Null
  | Undefined
  | Id (s : jsstring).

Global Instance jsid_eq_dec : EqDecision jsid.
Proof. solve_decision. Defined.

(** [state.candidate], as far as the branches of the component read it:
    [id], which is [undefined] or a text, and [loadError]. *)
Record t : Type := {
  id : option jsstring;
  loadError : option jsstring;
}.

Definition id_of (o : option jsstring) : jsid :=
  match o with
  | Some s => Id s
  | None => Undefined
  end.

(** [candidate ? candidate.id : null] *)
Definition cachedCandidateId (candidate : option t) : jsid :=
  match candidate with
  | Some candidate => id_of (id candidate)
  | None => Null
  end.

(** [route.id === cachedCandidateId] *)
Definition isCached (route_id : option jsstring) (candidate : option t)
    : bool :=
  bool_decide (id_of route_id = cachedCandidateId candidate).

(** What the component returns. *)
Inductive View : Type :=
  | LoadError (message : jsstring)
  | Loading
  | NotFound
  | Page (candidate_id : jsstring).

(** The body of the component. [candidate.loadError] is read without the
    guard that [cachedCandidateId] has. *)
Definition render (route_id : option jsstring) (candidate : option t)
    : result View :=
  match candidate with
  | None => Throw (TypeError "Cannot read property 'loadError' of null")
  | Some c =>
      match loadError c with
      | Some (ch :: message) => Ok (LoadError (ch :: message))
      | Some [] | None =>
          if negb (isCached route_id candidate) then Ok Loading
          else
            match id c with
            | None => Ok NotFound
            | Some i => Ok (Page i)
            end
      end
  end.

(** The dependencies of the effect: [[dispatch, isCached, route.id]], of
    which [dispatch] never changes. *)
Definition deps (route_id : option jsstring) (candidate : option t)
    : bool * option jsstring :=
  (isCached route_id candidate, route_id).

(** The effect runs after a render that returned, on the first render and
    when its dependencies differ from those of the render before, [prev].
    The result lists the ids for which [fetchCandidate(route.id)] is
    dispatched. *)
Definition effect (prev : option (bool * option jsstring))
    (route_id : option jsstring) (candidate : option t)
    : list (option jsstring) :=
  if bool_decide (prev = Some (deps route_id candidate)) then []
  else if negb (isCached route_id candidate) then [route_id]
  else [].

(** The render passes of one mounted component for the successive values of
    [state.candidate]: the views returned and the fetches dispatched. A
    render that throws ends them. *)
Fixpoint passes (prev : option (bool * option jsstring))
    (route_id : option jsstring) (stores : list (option t))
    : result (list View * list (option jsstring)) :=
  match stores with
  | [] => Ok ([], [])
  | candidate :: stores' =>
      view ← render route_id candidate;
      r ← passes (Some (deps route_id candidate)) route_id stores';
      Ok (view :: r.1, effect prev route_id candidate ++ r.2)
  end.

End Candidate.

(** ** SourceDesktop.jsx: the chips of the groups of a source *)

Module SourceDesktop.

(** A group of [source.groups]; [nickname] may be missing. *)
Record SavedGroup : Type := {
  id : Z;
  name : jsstring;
  nickname : option jsstring;
}.

(** [s.substring(0, n)] *)
Definition substring_0 (n : nat) (s : jsstring) : jsstring := take n s.

(** The name a chip stands for: the nickname when it is a non-empty text,
    the name otherwise. *)
Definition shown (group : SavedGroup) : jsstring :=
  match nickname group with
  | Some (c :: n) => c :: n
  | Some [] | None => name group
  end.

(** [group.nickname ? group.nickname.substring(0, 15)
                    : group.name.substring(0, 15)] *)
Definition chipLabel (group : SavedGroup) : jsstring :=
  match nickname group with
  | Some (c :: n) => substring_0 15 (c :: n)
  | Some [] | None => substring_0 15 (name group)
  end.

End SourceDesktop.

(** ** Sample data *)

(** Sample data: the taxonomy of the example, with a hierarchy that is the
    list of its classes, and a taxonomy whose class names are a fullwidth
    letter (U+FF21) and an emoji (U+1F600, in UTF-16 the pair D83D DE00). *)
Module Sample.

Definition extractor (h : list ClassOption.t) : list ClassOption.t := h.

Definition T1 : Taxonomy.t (list ClassOption.t) :=
  {| Taxonomy.name := lit "T1";
     Taxonomy.isLatest := true;
     Taxonomy.hierarchy :=
       [ {| ClassOption.class := lit "SN Ia" |};
         {| ClassOption.class := lit "SN II" |} ] |}.

Definition T1_old : Taxonomy.t (list ClassOption.t) :=
  {| Taxonomy.name := lit "T1";
     Taxonomy.isLatest := false;
     Taxonomy.hierarchy := [ {| ClassOption.class := lit "Nova" |} ] |}.

Definition T_wide : Taxonomy.t (list ClassOption.t) :=
  {| Taxonomy.name := lit "T";
     Taxonomy.isLatest := true;
     Taxonomy.hierarchy :=
       [ {| ClassOption.class := [65313] |};
         {| ClassOption.class := [55357; 56832] |} ] |}.

Definition group3 : Group.t :=
  {| Group.id := 3%Z; Group.name := lit "Sitewide" |}.
Definition group5 : Group.t :=
  {| Group.id := 5%Z; Group.name := lit "ZTF" |}.

End Sample.

Module FilterFormSample.
Import SourceTableFilterForm Sample.

(** A page that passes two groups and a callback that resolves. *)
Definition props : Props :=
  {| handleFilterSubmit := λ _, Ok (); groups := Some [group3; group5] |}.

(** A page that passes two groups and a callback that rejects. *)
Definition rejecting : Props :=
  {| handleFilterSubmit := λ _, Throw (Rejected (lit "offline"));
     groups := Some [group3; group5] |}.

Definition edits : list Event :=
  [ TextInput "sourceID" (lit "ZTF20");
    GroupIdsChange [5%Z];
    TextInput "ra" (lit "12.5");
    TextInput "sourceID" (lit "ZTF21abc");
    GroupIdsChange [3%Z] ].

End FilterFormSample.

(** Sample data for the data-sharing form: a source with three photometry
    points and one spectrum, of which the first and third point and the
    spectrum are selected. *)
Module ShareFormSample.
Import ShareDataForm.

Definition store : Store :=
  {| groups := Some [Sample.group3; Sample.group5];
     photometry :=
       {[ "ZTF21abc" :=
            [ {| id := 11%Z |}; {| id := 12%Z |}; {| id := 13%Z |} ] ]};
     spectra := {[ "ZTF21abc" := [ {| id := 7%Z |} ] ]} |}.

Definition selected : State :=
  {| selectedPhotRows := [0%nat; 2%nat];
     selectedSpecRows := [0%nat];
     isSubmitting := false;
     form := setValue "groups" (VGroups [Sample.group5]) (useForm fields) |}.

Definition success : Response := {| status := lit "success" |}.
Definition failure : Response := {| status := lit "error" |}.

End ShareFormSample.

(** Sample data for the comment list: a comment of alice and one of bob,
    viewed by bob. The hover over the comment of bob is followed, without a
    leave event in between, by a hover over the one of alice. *)
Module CommentListSample.
Import CommentList.

Definition bob : Profile :=
  {| username := lit "bob"; roles := [lit "Full user"] |}.

Definition by_alice : Comment := {| id := 1%Z; author := lit "alice" |}.
Definition by_bob : Comment := {| id := 2%Z; author := lit "bob" |}.

Definition hovers : list Event := [MouseOver by_bob; MouseOver by_alice].

End CommentListSample.


(** Sessions of the sample page of the filter form. *)
Module FilterSessionSample.
Import SourceTableFilterForm.

Definition selecting : list Event :=
  [ ClassificationsChange [lit "T1: SN Ia"];
    GroupIdsChange [5%Z];
    SubmitClick;
    GroupIdsChange [3%Z; 5%Z];
    SubmitClick ].

(** The state and the calls a session of the sample page ends with. *)
Definition after (evs : list Event) : State :=
  match session Sample.extractor false FilterFormSample.props [Sample.T1] evs
  with
  | Ok (st, _) => st
  | Throw _ => initial None
  end.



End FilterSessionSample.

(** ** Facts about the string order *)

Section str_order.

Lemma str_ltb_irrefl x : str_ltb x x = false.
Proof.
  induction x as [|c x IH]; simpl; [done|].
  by rewrite N.ltb_irrefl.
Qed.

Lemma str_ltb_asym x y : str_ltb x y = true → str_ltb y x = false.
Proof.
  revert y. induction x as [|m x IH]; intros [|n y]; simpl; try done.
  destruct (N.ltb_spec m n), (N.ltb_spec n m); try done; try lia.
  apply IH.
Qed.

Lemma str_ltb_trans x y z :
  str_ltb x y = true → str_ltb y z = true → str_ltb x z = true.
Proof.
  revert y z. induction x as [|a x IH]; intros [|b y] [|c z]; simpl; try done.
  destruct (N.ltb_spec a b), (N.ltb_spec b a), (N.ltb_spec b c),
    (N.ltb_spec c b), (N.ltb_spec a c), (N.ltb_spec c a);
    try done; try lia.
  apply IH.
Qed.

Lemma str_ltb_total x y : str_ltb x y = false → str_ltb y x = false → x = y.
Proof.
  revert y. induction x as [|m x IH]; intros [|n y]; simpl; try done.
  destruct (N.ltb_spec m n), (N.ltb_spec n m); try done; try lia.
  intros ??. assert (m = n) as -> by lia. f_equal. by apply IH.
Qed.

Global Instance str_le_total : Total str_le.
Proof.
  intros x y. unfold str_le.
  destruct (str_ltb y x) eqn:E; [right; by apply str_ltb_asym | by left].
Qed.

Global Instance str_le_trans : Transitive str_le.
Proof.
  intros x y z. unfold str_le. intros Hxy Hyz.
  destruct (str_ltb z x) eqn:Hzx; [exfalso|done].
  destruct (str_ltb x y) eqn:Hlt1.
  - destruct (str_ltb y z) eqn:Hlt2.
    + pose proof (str_ltb_trans _ _ _ Hlt1 Hlt2) as Hxz.
      apply str_ltb_asym in Hxz. congruence.
    + assert (y = z) as -> by by apply str_ltb_total.
      congruence.
  - assert (x = y) as -> by by apply str_ltb_total.
    congruence.
Qed.

Lemma str_le_lt x y : str_le x y → x ≠ y → str_lt x y.
Proof.
  unfold str_le, str_lt. intros Hle Hne.
  destruct (str_ltb x y) eqn:E; [done|].
  exfalso. apply Hne. by apply str_ltb_total.
Qed.

Lemma code_points_surrogate_free s : surrogate_free s → code_points s = s.
Proof.
  induction 1 as [|c s Hc Hs IH]; [done|].
  destruct s as [|d s]; [done|].
  change (code_points (c :: d :: s)) with
    (if is_lead c && is_trail d
     then ((c - 55296) * 1024 + (d - 56320) + 65536) :: code_points s
     else c :: code_points (d :: s)).
  rewrite Hc, IH. done.
Qed.

End str_order.

(** ** Facts about [new Set] and [sort] *)

Section set_sort.
Context `{EqDecision A}.

Lemma Set_add_NoDup (s : list A) x : NoDup s → NoDup (Set_add s x).
Proof.
  intros Hs. unfold Set_add. case_bool_decide; [done|].
  apply NoDup_app. split_and!; [done| |apply NoDup_singleton].
  intros y Hy ->%list_elem_of_singleton. done.
Qed.

Lemma Set_add_elem_of (s : list A) x y :
  y ∈ Set_add s x ↔ y ∈ s ∨ y = x.
Proof.
  unfold Set_add. case_bool_decide.
  - split; [by left|]. intros [?| ->]; done.
  - rewrite elem_of_app, list_elem_of_singleton. done.
Qed.

Lemma foldl_Set_add_NoDup (arr s : list A) :
  NoDup s → NoDup (foldl Set_add s arr).
Proof.
  revert s. induction arr as [|x arr IH]; intros s Hs; simpl; [done|].
  by apply IH, Set_add_NoDup.
Qed.

Lemma foldl_Set_add_elem_of (arr s : list A) y :
  y ∈ foldl Set_add s arr ↔ y ∈ s ∨ y ∈ arr.
Proof.
  revert s. induction arr as [|x arr IH]; intros s; simpl.
  - rewrite elem_of_nil. tauto.
  - rewrite IH, Set_add_elem_of, elem_of_cons. tauto.
Qed.

Lemma new_Set_NoDup (arr : list A) : NoDup (new_Set arr).
Proof. apply foldl_Set_add_NoDup, NoDup_nil_2. Qed.

Lemma new_Set_elem_of (arr : list A) y : y ∈ new_Set arr ↔ y ∈ arr.
Proof.
  unfold new_Set. rewrite foldl_Set_add_elem_of, elem_of_nil. tauto.
Qed.

End set_sort.

Lemma sort_Permutation arr : sort arr ≡ₚ arr.
Proof. apply merge_sort_Permutation. Qed.

Lemma sort_elem_of arr x : x ∈ sort arr ↔ x ∈ arr.
Proof. by rewrite sort_Permutation. Qed.

Lemma sort_NoDup arr : NoDup arr → NoDup (sort arr).
Proof. by rewrite sort_Permutation. Qed.

Lemma sort_StronglySorted_le arr : StronglySorted str_le (sort arr).
Proof. apply Sorted_StronglySorted; [apply _|]. apply Sorted_merge_sort, _. Qed.

Lemma StronglySorted_le_lt l :
  NoDup l → StronglySorted str_le l → StronglySorted str_lt l.
Proof.
  induction 2 as [|x l Hl IH Hx]; [constructor|].
  apply NoDup_cons in H as [Hnin Hnd].
  constructor; [by apply IH|].
  apply Forall_forall. intros y Hy.
  apply str_le_lt; [by eapply Forall_forall in Hx|].
  intros ->. done.
Qed.

Lemma sort_StronglySorted arr : NoDup arr → StronglySorted str_lt (sort arr).
Proof.
  intros Hnd. apply StronglySorted_le_lt; [by apply sort_NoDup|].
  apply sort_StronglySorted_le.
Qed.

Lemma StronglySorted_cp_lt l :
  Forall surrogate_free l → StronglySorted str_lt l →
  StronglySorted cp_lt l.
Proof.
  induction 2 as [|x l Hl IH Hx]; [constructor|].
  apply Forall_cons in H as [Hx' Hl'].
  constructor; [by apply IH|].
  apply Forall_forall. intros y Hy. unfold cp_lt.
  rewrite !code_points_surrogate_free; [|by eapply Forall_forall in Hl'|done].
  by eapply Forall_forall in Hx.
Qed.


(** ** Properties of the classification option set *)

Section classifications_facts.
Import SourceTableFilterForm.
Context {Hierarchy : Type} (allowedClasses : Hierarchy → list ClassOption.t).

Lemma foldl_concat_elem_of {A B} (f : B → list A) (l : list B) acc x :
  x ∈ foldl (λ acc b, acc ++ f b) acc l
  ↔ x ∈ acc ∨ ∃ b, b ∈ l ∧ x ∈ f b.
Proof.
  revert acc. induction l as [|b l IH]; intros acc; simpl.
  - split; [by left|]. intros [?|(b & Hb & _)]; [done|].
    by apply elem_of_nil in Hb.
  - rewrite IH, elem_of_app. split.
    + intros [[?|?]|(b' & Hb' & ?)]; [by left| |].
      * right. exists b. split; [left|done].
      * right. exists b'. split; [by right|done].
    + intros [?|(b' & Hb' & ?)]; [by left; left|].
      apply elem_of_cons in Hb' as [->|?]; [by left; right|].
      right. by exists b'.
Qed.

Lemma classifications_elem_of taxonomyList l :
  l ∈ classifications allowedClasses taxonomyList ↔
  ∃ t o, t ∈ taxonomyList ∧ Taxonomy.isLatest t = true ∧
         o ∈ allowedClasses (Taxonomy.hierarchy t) ∧ l = label t o.
Proof.
  unfold classifications.
  rewrite sort_elem_of, new_Set_elem_of, foldl_concat_elem_of.
  split.
  - intros [Hnil|(t & Ht & Hl)]; [by apply elem_of_nil in Hnil|].
    apply list_elem_of_In, filter_In in Ht as [Ht Hlatest].
    apply list_elem_of_fmap in Hl as (o & -> & Ho).
    exists t, o. by rewrite list_elem_of_In.
  - intros (t & o & Ht & Hlatest & Ho & ->). right. exists t. split.
    + apply list_elem_of_In, filter_In. by rewrite <- list_elem_of_In.
    + apply list_elem_of_fmap. by exists o.
Qed.

Lemma classifications_NoDup taxonomyList :
  NoDup (classifications allowedClasses taxonomyList).
Proof. apply sort_NoDup, new_Set_NoDup. Qed.

Lemma classifications_sorted taxonomyList :
  StronglySorted str_lt (classifications allowedClasses taxonomyList).
Proof. apply sort_StronglySorted, new_Set_NoDup. Qed.

(** On labels without surrogate code units the order of the code units
    is the order of the code points. *)
Lemma classifications_sorted_code_points taxonomyList :
  Forall surrogate_free (classifications allowedClasses taxonomyList) →
  StronglySorted cp_lt (classifications allowedClasses taxonomyList).
Proof.
  intros Hfree. by apply StronglySorted_cp_lt, classifications_sorted.
Qed.

End classifications_facts.


(** C4 (as amended). The option set holds exactly the labels
    ["{taxonomyName}: {className}"] of the classes that the extractor gives
    for the taxonomies with [isLatest] true, each label once, in strictly
    ascending order of UTF-16 code units; for the taxonomy [T1] with classes
    "SN Ia" and "SN II" it is ["T1: SN II"; "T1: SN Ia"]. *)
Theorem classifications_spec :
  (∀ (Hierarchy : Type) (allowedClasses : Hierarchy → list ClassOption.t)
     (taxonomyList : list (Taxonomy.t Hierarchy)),
     let options :=
       SourceTableFilterForm.classifications allowedClasses taxonomyList in
     (∀ l, l ∈ options ↔
           ∃ t o, t ∈ taxonomyList ∧ Taxonomy.isLatest t = true ∧
                  o ∈ allowedClasses (Taxonomy.hierarchy t) ∧ l = label t o)
     ∧ NoDup options
     ∧ StronglySorted str_lt options)
  ∧ SourceTableFilterForm.classifications Sample.extractor [Sample.T1]
    = [lit "T1: SN II"; lit "T1: SN Ia"].
Proof.
  split; [|by vm_compute].
  intros Hierarchy allowedClasses taxonomyList options. split_and!.
  - apply classifications_elem_of.
  - apply classifications_NoDup.
  - apply classifications_sorted.
Qed.

(** A taxonomy that is not the latest contributes nothing, and a label that
    two taxonomies give occurs once. *)
Example classifications_latest_once :
  SourceTableFilterForm.classifications Sample.extractor
    [Sample.T1; Sample.T1_old; Sample.T1]
  = [lit "T1: SN II"; lit "T1: SN Ia"].
Proof. by vm_compute. Qed.

(** C4 (as stated) fails: the labels of [T_wide] come out with the emoji
    first, because its first code unit D83D is below FF21, while its code
    point 1F600 is above FF21. *)
Lemma classifications_not_in_code_point_order :
  SourceTableFilterForm.classifications Sample.extractor [Sample.T_wide]
  = [lit "T: " ++ [55357; 56832]; lit "T: " ++ [65313]]
  ∧ cp_lt (lit "T: " ++ [65313]) (lit "T: " ++ [55357; 56832])
  ∧ ¬ StronglySorted cp_lt
        (SourceTableFilterForm.classifications Sample.extractor
           [Sample.T_wide]).
Proof.
  split_and!; [by vm_compute|by vm_compute|].
  intros Hsorted.
  assert (SourceTableFilterForm.classifications Sample.extractor [Sample.T_wide]
          = [lit "T: " ++ [55357; 56832]; lit "T: " ++ [65313]]) as Heq
    by by vm_compute.
  rewrite Heq in Hsorted.
  apply StronglySorted_inv in Hsorted as [_ Hall].
  apply Forall_cons in Hall as [Hlt _].
  vm_compute in Hlt. done.
Qed.

(** ** Properties of the filter form *)

Section filter_form_facts.
Import SourceTableFilterForm.
Context {Hierarchy : Type} (allowedClasses : Hierarchy → list ClassOption.t).
Context (requiredOnArrays : bool).
Implicit Types (props : Props) (st : State) (view : View) (ev : Event).
Implicit Types (taxonomyList : list (Taxonomy.t Hierarchy)).
Implicit Types (vals : gmap string value).

Lemma render_undefined props taxonomyList st :
  groups props = None →
  render allowedClasses props taxonomyList st
  = Throw (TypeError "Cannot read property 'forEach' of undefined").
Proof. intros Hg. unfold render. by rewrite Hg. Qed.

Lemma render_inv props taxonomyList st view :
  render allowedClasses props taxonomyList st = Ok view →
  ∃ gs, groups props = Some gs
        ∧ registered view = fields (Some gs)
        ∧ item_value <$> classificationItems view
          = classifications allowedClasses taxonomyList
        ∧ (∃ items, groupSelect view = Some items
                    ∧ item_value <$> items = Group.id <$> gs)
        ∧ submitDisabled view = false.
Proof.
  unfold render. destruct (groups props) as [gs|] eqn:Hg; [|done].
  simpl. intros [= <-]. exists gs. simpl. split_and!; try done.
  - rewrite <- list_fmap_compose. apply list_fmap_id.
  - eexists. split; [done|]. case_bool_decide.
    + by rewrite <- list_fmap_compose.
    + destruct gs; [done|]. simpl in *. lia.
Qed.

Lemma render_defined props taxonomyList st gs :
  groups props = Some gs →
  ∃ view, render allowedClasses props taxonomyList st = Ok view.
Proof. intros Hg. unfold render. rewrite Hg. simpl. eauto. Qed.

(** Validation of the rendered fields only looks at [groupIds]. *)
Lemma validateFields_fields gs vals :
  validateFields requiredOnArrays vals (fields (Some gs))
  = Ok (if noSelection (vals !! "groupIds")
        then {[ "groupIds" := if isEmpty requiredOnArrays (vals !! "groupIds")
                              then "required" else "validate" ]}
        else ∅).
Proof.
  unfold fields, noSelection. simpl. unfold validateField at 1. simpl.
  destruct (vals !! "groupIds") as [[s|b|l|l|l]|] eqn:Hv; simpl;
    [unfold validateGroups; rewrite Hv..|done];
    destruct requiredOnArrays; simpl;
    repeat case_bool_decide; try destruct b; done.
Qed.

Lemma MissingRequiredSelection_nonempty :
  MissingRequiredSelection requiredOnArrays ≠ ∅.
Proof. apply insert_non_empty. Qed.

(** A submit with an empty [groupIds] on a form with a group selector. *)
Lemma onSubmit_blocked props taxonomyList st view :
  render allowedClasses props taxonomyList st = Ok view →
  getValues (form st) !! "groupIds" = Some (VInts []) →
  onSubmit requiredOnArrays props view st
  = {| form_after :=
         {| fieldValues := getValues (form st);
            errors := MissingRequiredSelection requiredOnArrays |};
       calls := [];
       settled := Ok (Invalid (MissingRequiredSelection requiredOnArrays)) |}.
Proof.
  intros (gs & _ & Hreg & _)%render_inv Hempty.
  unfold onSubmit, handleSubmit.
  rewrite Hreg, validateFields_fields, Hempty.
  change (noSelection (Some (VInts []))) with true. cbv iota.
  change (isEmpty requiredOnArrays (Some (VInts [])))
    with (requiredOnArrays && true).
  rewrite andb_true_r.
  rewrite bool_decide_eq_false_2; [done|].
  apply MissingRequiredSelection_nonempty.
Qed.

(** A submit with a [groupIds] that selects a group. *)
Lemma onSubmit_forwarded props taxonomyList st view :
  render allowedClasses props taxonomyList st = Ok view →
  noSelection (getValues (form st) !! "groupIds") = false →
  onSubmit requiredOnArrays props view st
  = {| form_after := {| fieldValues := getValues (form st); errors := ∅ |};
       calls := [getValues (form st)];
       settled := (r ← handleFilterSubmit props (getValues (form st));
                   Ok (Valid r)) |}.
Proof.
  intros (gs & _ & Hreg & _)%render_inv Hempty.
  unfold onSubmit, handleSubmit.
  rewrite Hreg, validateFields_fields, Hempty.
  by rewrite bool_decide_eq_true_2.
Qed.

(** *** Field edits *)

Lemma delivered_offered props taxonomyList st view gs ev :
  groups props = Some gs →
  render allowedClasses props taxonomyList st = Ok view →
  delivered view ev = offered allowedClasses gs taxonomyList ev.
Proof.
  intros Hg (gs' & Hg' & _ & Hcls & (items & Hsel & Hitems) & _)%render_inv.
  assert (gs' = gs) as -> by congruence.
  destruct ev; simpl; try done.
  - by rewrite Hcls.
  - by rewrite Hsel, Hitems.
Qed.

Lemma handle_edit props view st ev n v :
  setField ev = Some (n, v) →
  (handle requiredOnArrays props view st ev).2 = [] ∧
  fieldValues (form (handle requiredOnArrays props view st ev).1)
  = <[n := v]> (fieldValues (form st)).
Proof. destruct ev; intros [= <- <-]; done. Qed.

Lemma step_edit props taxonomyList gs st ev n v :
  groups props = Some gs →
  setField ev = Some (n, v) →
  offered allowedClasses gs taxonomyList ev = true →
  ∃ st', step allowedClasses requiredOnArrays props taxonomyList st ev
         = Ok (st', [])
         ∧ fieldValues (form st') = <[n := v]> (fieldValues (form st)).
Proof.
  intros Hg Hset Hoff.
  destruct (render_defined props taxonomyList st gs Hg) as [view Hview].
  unfold step. rewrite Hview. simpl.
  rewrite (delivered_offered _ _ _ _ _ _ Hg Hview), Hoff.
  destruct (handle_edit props view st ev n v Hset) as (Hcalls & Hvals).
  destruct (handle requiredOnArrays props view st ev) as [st' cs].
  simpl in *. subst cs.
  by exists st'.
Qed.

Lemma run_edits props taxonomyList gs evs st :
  groups props = Some gs →
  Forall (λ ev, is_Some (setField ev)
                ∧ offered allowedClasses gs taxonomyList ev = true)
         evs →
  ∃ st', run allowedClasses requiredOnArrays props taxonomyList st evs
         = Ok (st', [])
         ∧ ∀ n, fieldValues (form st') !! n
                = lastSetField n (omap setField evs)
                    (fieldValues (form st) !! n).
Proof.
  intros Hg Hevs. revert st.
  induction Hevs as [|ev evs [[[n v] Hset] Hoff] _ IH]; intros st.
  - by exists st.
  - destruct (step_edit props taxonomyList gs st ev n v Hg Hset Hoff)
      as (st1 & Hstep & Hvals).
    destruct (IH st1) as (st' & Hrun & Hlast).
    exists st'. simpl. rewrite Hstep. simpl. rewrite Hrun. simpl.
    split; [done|]. intros m. rewrite Hlast, Hset. simpl.
    rewrite Hvals, lookup_insert. done.
Qed.

(** *** Mounting *)

Lemma mount_defined props taxonomyList gs :
  groups props = Some gs →
  mount allowedClasses props taxonomyList = Ok (initial (Some gs)).
Proof.
  intros Hg. unfold mount.
  destruct (render_defined props taxonomyList (initial (groups props)) gs Hg)
    as [view ->].
  simpl. by rewrite Hg.
Qed.

Lemma session_undefined props taxonomyList evs :
  groups props = None →
  session allowedClasses requiredOnArrays props taxonomyList evs
  = Throw (TypeError "Cannot read property 'forEach' of undefined").
Proof.
  intros Hg. unfold session, mount. by rewrite render_undefined.
Qed.

Lemma defaultValues_groupIds gs :
  defaultValues (fields (Some gs)) !! "groupIds" = Some (VInts []).
Proof. by vm_compute. Qed.

(** Without the group selector no rule is registered, so validation finds
    nothing whatever the values are. *)
Lemma validateFields_without_groups vals :
  validateFields requiredOnArrays vals (fields None) = Ok ∅.
Proof. done. Qed.

(** *** Reset *)

Lemma handleClickReset_values view st :
  fieldValues (form (handleClickReset view st))
  = defaultValues (registered view)
  ∧ errors (form (handleClickReset view st)) = ∅.
Proof. split; [apply (left_id_L ∅ (∪))|done]. Qed.

Lemma handleClickReset_idempotent view st :
  handleClickReset view (handleClickReset view st) = handleClickReset view st.
Proof. done. Qed.

Lemma handleClickReset_no_call props view st :
  (handle requiredOnArrays props view st ResetClick).2 = [].
Proof. done. Qed.

(** The two [useState] values are not touched by [handleClickReset]. *)
Lemma handleClickReset_mirrors view st :
  selectedClassifications (handleClickReset view st)
  = selectedClassifications st
  ∧ selectedGroups (handleClickReset view st) = selectedGroups st.
Proof. done. Qed.

(** Every default is the empty text, an empty array or [false]. *)
Lemma fields_defaults (g : option (list Group.t)) :
  Forall (λ f, defaultValue f ∈ [VStr []; VStrs []; VInts []; VBool false])
         (fields g).
Proof.
  destruct g; unfold fields, textField; simpl;
    repeat (apply Forall_cons_2; [simpl; set_solver|]); apply Forall_nil_2.
Qed.


(** *** The display-emphasis state *)



(** The arrays kept for emphasis are no input of a submit. *)
Lemma onSubmit_mirrors props view st sc sg :
  onSubmit requiredOnArrays props view
    {| selectedClassifications := sc; selectedGroups := sg; form := form st |}
  = onSubmit requiredOnArrays props view st.
Proof. done. Qed.

(** *** Submission *)

(** C1. When a group list is supplied and the draft [groupIds] is empty,
    a submit does not call [handleFilterSubmit]; it settles with the
    validation failure [MissingRequiredSelection], which is stored as an
    error of the field [groupIds] and of no other field, and leaves the
    draft as it was. *)
Theorem submit_requires_group_selection props taxonomyList st gs :
  groups props = Some gs →
  getValues (form st) !! "groupIds" = Some (VInts []) →
  ∃ view,
    render allowedClasses props taxonomyList st = Ok view
    ∧ calls (onSubmit requiredOnArrays props view st) = []
    ∧ settled (onSubmit requiredOnArrays props view st)
      = Ok (Invalid (MissingRequiredSelection requiredOnArrays))
    ∧ errors (form_after (onSubmit requiredOnArrays props view st))
      !! "groupIds"
      = Some (if requiredOnArrays then "required" else "validate")
    ∧ dom (errors (form_after (onSubmit requiredOnArrays props view st)))
      = {[ "groupIds" ]}
    ∧ fieldValues (form_after (onSubmit requiredOnArrays props view st))
      = fieldValues (form st).
Proof.
  intros Hg Hempty.
  destruct (render_defined props taxonomyList st gs Hg) as [view Hview].
  exists view. split; [done|].
  rewrite (onSubmit_blocked props taxonomyList st view Hview Hempty).
  simpl. by split_and!.
Qed.

(** With an empty group list no event changes [groupIds] and no event
    calls [handleFilterSubmit]. *)
Lemma step_empty_group_list hfs taxonomyList st ev :
  getValues (form st) !! "groupIds" = Some (VInts []) →
  ∃ st',
    step allowedClasses requiredOnArrays
      {| handleFilterSubmit := hfs; groups := Some [] |}
      taxonomyList st ev = Ok (st', [])
    ∧ getValues (form st') !! "groupIds" = Some (VInts []).
Proof.
  intros Hempty.
  set (props := {| handleFilterSubmit := hfs; groups := Some [] |}).
  destruct (render_defined props taxonomyList st [] eq_refl) as [view Hview].
  unfold step. rewrite Hview. simpl.
  destruct (delivered view ev) eqn:Hdel; [|by exists st].
  destruct ev as [n text|value|checked|checked|value| |]; simpl.
  - eexists. split; [done|]. simpl. rewrite lookup_insert_ne; [done|].
    intros ->. simpl in Hdel. by vm_compute in Hdel.
  - eexists. split; [done|]. simpl. by rewrite lookup_insert_ne.
  - eexists. split; [done|]. simpl. by rewrite lookup_insert_ne.
  - eexists. split; [done|]. simpl. by rewrite lookup_insert_ne.
  - eexists. split; [done|]. simpl. rewrite lookup_insert_eq.
    apply render_inv in Hview
      as (gs & Hg & _ & _ & (items & Hsel & Hitems) & _).
    simpl in Hdel. rewrite Hsel, Hitems in Hdel.
    assert (gs = []) as -> by (simpl in Hg; congruence).
    apply bool_decide_eq_true in Hdel. simpl in Hdel.
    destruct value as [|z value]; [done|].
    exfalso. eapply elem_of_nil, Hdel. left.
  - rewrite (onSubmit_blocked props taxonomyList st view Hview Hempty).
    eexists. split; [done|]. done.
  - eexists. split; [done|]. simpl.
    apply render_inv in Hview as (gs & _ & -> & _).
    rewrite (left_id_L ∅ (∪)). apply defaultValues_groupIds.
Qed.

Lemma run_empty_group_list hfs taxonomyList evs st :
  getValues (form st) !! "groupIds" = Some (VInts []) →
  ∃ st',
    run allowedClasses requiredOnArrays
      {| handleFilterSubmit := hfs; groups := Some [] |}
      taxonomyList st evs = Ok (st', [])
    ∧ getValues (form st') !! "groupIds" = Some (VInts []).
Proof.
  revert st. induction evs as [|ev evs IH]; intros st Hempty.
  - by exists st.
  - destruct (step_empty_group_list hfs taxonomyList st ev Hempty)
      as (st1 & Hstep & Hempty1).
    destruct (IH st1 Hempty1) as (st' & Hrun & Hempty').
    exists st'. cbn [run]. rewrite Hstep. cbn [mbind result_bind fst snd].
    rewrite Hrun. done.
Qed.

(** C8. With the empty list as group list the group selector is rendered
    without menu entries and [groupIds] is registered with its rules;
    whatever events the user produces, also submits, [handleFilterSubmit]
    is not called during them, and a submit after them is refused with
    [MissingRequiredSelection]. *)
Theorem empty_group_list_blocks_submission hfs taxonomyList evs :
  let props := {| handleFilterSubmit := hfs; groups := Some [] |} in
  ∃ st view,
    session allowedClasses requiredOnArrays props taxonomyList evs = Ok (st, [])
    ∧ render allowedClasses props taxonomyList st = Ok view
    ∧ groupSelect view = Some []
    ∧ (∃ f, f ∈ registered view ∧ RHF.name f = "groupIds"
            ∧ required (rules f) = true
            ∧ validate (rules f) = Some validateGroups)
    ∧ calls (onSubmit requiredOnArrays props view st) = []
    ∧ settled (onSubmit requiredOnArrays props view st)
      = Ok (Invalid (MissingRequiredSelection requiredOnArrays)).
Proof.
  intros props.
  destruct (run_empty_group_list hfs taxonomyList evs (initial (Some []))
              (defaultValues_groupIds [])) as (st & Hrun & Hempty).
  destruct (render_defined props taxonomyList st [] eq_refl) as [view Hview].
  exists st, view. split_and!.
  - unfold session. rewrite (mount_defined props taxonomyList []); [|done].
    exact Hrun.
  - done.
  - unfold render in Hview. by simplify_eq/=.
  - unfold render in Hview. simplify_eq/=.
    exists {| RHF.name := "groupIds"; defaultValue := VInts [];
              rules := {| required := true;
                          validate := Some validateGroups |} |}.
    split; [|done]. do 16 (apply elem_of_cons; right). left.
  - by rewrite (onSubmit_blocked props taxonomyList st view Hview Hempty).
  - by rewrite (onSubmit_blocked props taxonomyList st view Hview Hempty).
Qed.

(** C6. After field edits that the form offers, the draft holds for every
    field the value of its last edit, or its default if it was not
    edited. A submit that passes validation calls [handleFilterSubmit]
    once, with exactly that draft, and settles the way the call does: a
    throw or rejection of the call is the rejection of the submit. *)
Theorem submit_snapshot props taxonomyList gs evs :
  groups props = Some gs →
  Forall (λ ev, is_Some (setField ev)
                ∧ offered allowedClasses gs taxonomyList ev = true)
         evs →
  ∃ st view,
    session allowedClasses requiredOnArrays props taxonomyList evs = Ok (st, [])
    ∧ render allowedClasses props taxonomyList st = Ok view
    ∧ (∀ n, getValues (form st) !! n
            = lastSetField n (omap setField evs)
                (defaultValues (fields (Some gs)) !! n))
    ∧ (noSelection (getValues (form st) !! "groupIds") = false →
       calls (onSubmit requiredOnArrays props view st) = [getValues (form st)]
       ∧ settled (onSubmit requiredOnArrays props view st)
         = (r ← handleFilterSubmit props (getValues (form st));
            Ok (Valid r))
       ∧ ∀ e, handleFilterSubmit props (getValues (form st)) = Throw e →
              settled (onSubmit requiredOnArrays props view st) = Throw e).
Proof.
  intros Hg Hevs.
  destruct (run_edits props taxonomyList gs evs (initial (Some gs)) Hg Hevs)
    as (st & Hrun & Hlast).
  destruct (render_defined props taxonomyList st gs Hg) as [view Hview].
  exists st, view. split_and!.
  - unfold session. rewrite (mount_defined props taxonomyList gs); [|done].
    exact Hrun.
  - done.
  - done.
  - intros Hfull.
    rewrite (onSubmit_forwarded props taxonomyList st view Hview Hfull).
    simpl. split_and!; [done..|]. by intros e ->.
Qed.

End filter_form_facts.

(** *** The filter form on sample data *)

(** The example of a submit with [sourceID] "ZTF21abc" and [groupIds] [3]:
    the callback receives these two values and the defaults of the other
    fields. *)
Example submit_example (requiredOnArrays : bool) :
  ∃ st snap,
    SourceTableFilterForm.session Sample.extractor requiredOnArrays
      FilterFormSample.props [Sample.T1]
      [ SourceTableFilterForm.TextInput "sourceID" (lit "ZTF21abc");
        SourceTableFilterForm.GroupIdsChange [3%Z];
        SourceTableFilterForm.SubmitClick ] = Ok (st, [snap])
    ∧ snap = <["sourceID" := VStr (lit "ZTF21abc")]>
               (<["groupIds" := VInts [3%Z]]>
                  (defaultValues (SourceTableFilterForm.fields (Some []))))
    ∧ errors (SourceTableFilterForm.form st) = ∅.
Proof.
  exists
    (match
       SourceTableFilterForm.session Sample.extractor requiredOnArrays
         FilterFormSample.props [Sample.T1]
         [ SourceTableFilterForm.TextInput "sourceID" (lit "ZTF21abc");
           SourceTableFilterForm.GroupIdsChange [3%Z];
           SourceTableFilterForm.SubmitClick ]
     with
     | Ok (st, _) => st
     | Throw _ => SourceTableFilterForm.initial None
     end),
    (<["sourceID" := VStr (lit "ZTF21abc")]>
       (<["groupIds" := VInts [3%Z]]>
          (defaultValues (SourceTableFilterForm.fields (Some []))))).
  split_and!; [|reflexivity|];
    destruct requiredOnArrays; vm_compute; reflexivity.
Qed.

(** The example of a submit without a selected group: the callback is not
    called and the error is one of the field [groupIds]. *)
Example submit_blocked_example (requiredOnArrays : bool) :
  ∃ st,
    SourceTableFilterForm.session Sample.extractor requiredOnArrays
      FilterFormSample.props [Sample.T1]
      [ SourceTableFilterForm.TextInput "sourceID" (lit "ZTF21abc");
        SourceTableFilterForm.SubmitClick ] = Ok (st, [])
    ∧ dom (errors (SourceTableFilterForm.form st)) = {[ "groupIds" ]}.
Proof. destruct requiredOnArrays; eexists; split_and!; by vm_compute. Qed.

Lemma submit_requires_group_selection_witness :
  ∃ view,
    SourceTableFilterForm.render Sample.extractor FilterFormSample.props
      [Sample.T1]
      (SourceTableFilterForm.initial (Some [Sample.group3; Sample.group5]))
    = Ok view
    ∧ calls (SourceTableFilterForm.onSubmit false FilterFormSample.props view
               (SourceTableFilterForm.initial
                  (Some [Sample.group3; Sample.group5]))) = [].
Proof.
  destruct (submit_requires_group_selection Sample.extractor false
              FilterFormSample.props [Sample.T1]
              (SourceTableFilterForm.initial
                 (Some [Sample.group3; Sample.group5]))
              [Sample.group3; Sample.group5])
    as (view & Hview & Hcalls & _).
  - reflexivity.
  - vm_compute. reflexivity.
  - exists view. split; [exact Hview|exact Hcalls].
Defined.

Lemma submit_snapshot_witness :
  ∃ st view,
    SourceTableFilterForm.session Sample.extractor false
      FilterFormSample.rejecting [Sample.T1] FilterFormSample.edits
    = Ok (st, [])
    ∧ getValues (SourceTableFilterForm.form st) !! "sourceID"
      = Some (VStr (lit "ZTF21abc"))
    ∧ getValues (SourceTableFilterForm.form st) !! "groupIds"
      = Some (VInts [3%Z])
    ∧ getValues (SourceTableFilterForm.form st) !! "dec" = Some (VStr [])
    ∧ calls (SourceTableFilterForm.onSubmit false FilterFormSample.rejecting
               view st)
      = [getValues (SourceTableFilterForm.form st)]
    ∧ settled (SourceTableFilterForm.onSubmit false
                 FilterFormSample.rejecting view st)
      = Throw (Rejected (lit "offline")).
Proof.
  destruct (submit_snapshot Sample.extractor false FilterFormSample.rejecting
              [Sample.T1] [Sample.group3; Sample.group5]
              FilterFormSample.edits)
    as (st & view & Hsession & _ & Hlast & Hsubmit).
  - reflexivity.
  - unfold FilterFormSample.edits.
    repeat (apply Forall_cons_2; [split; [by eexists|by vm_compute]|]).
    apply Forall_nil_2.
  - exists st, view. split; [exact Hsession|].
    destruct Hsubmit as (Hcalls & _ & Hthrow).
    { rewrite Hlast. by vm_compute. }
    rewrite !Hlast. split_and!; [by vm_compute..|exact Hcalls|].
    by apply Hthrow.
Defined.



(** C5 fails when the form is rendered. Without a [groups] prop the
    component throws in its first render, on [groups.forEach], before the
    form exists: no event is handled and [handleFilterSubmit] is never
    called. *)
Theorem absent_group_list_throws
    (Hierarchy : Type) (allowedClasses : Hierarchy → list ClassOption.t)
    (requiredOnArrays : bool)
    (hfs : gmap string value → result unit)
    (taxonomyList : list (Taxonomy.t Hierarchy))
    (evs : list SourceTableFilterForm.Event) :
  SourceTableFilterForm.session allowedClasses requiredOnArrays
    {| SourceTableFilterForm.handleFilterSubmit := hfs;
       SourceTableFilterForm.groups := None |}
    taxonomyList evs
  = Throw (TypeError "Cannot read property 'forEach' of undefined").
Proof. by apply session_undefined. Qed.

(** ** Properties of the data-sharing form *)

Section share_form_facts.
Import ShareDataForm.
Implicit Types (store : Store) (st : State) (result : Response).

Lemma selectedIDs_defined (table : option (list Row)) (rows : list nat) :
  (∀ idx, idx ∈ rows → ∃ t, table = Some t ∧ is_Some (t !! idx)) →
  ∃ ids, selectedIDs table rows = Ok ids.
Proof.
  induction rows as [|idx rows IH]; intros Hrows; [by eexists|].
  destruct (Hrows idx) as (t & -> & [row Hrow]); [left|].
  destruct IH as [ids Hids].
  { intros idx' Hin. apply Hrows. by right. }
  exists (id row :: ids). simpl. rewrite Hrow. simpl. by rewrite Hids.
Qed.

Lemma onSubmit_dispatch_defined store route_id st groupsFormData gs :
  rows_in_tables store route_id st →
  groupsFormData !! "groups" = Some (VGroups gs) →
  ∃ data,
    onSubmit_dispatch store route_id st groupsFormData
    = (setIsSubmitting true st, Ok data)
    ∧ groupIDs data = Group.id <$> gs.
Proof.
  intros [Hphot Hspec] Hgroups.
  destruct (selectedIDs_defined _ _ Hphot) as [photIDs HphotIDs].
  destruct (selectedIDs_defined _ _ Hspec) as [specIDs HspecIDs].
  unfold onSubmit_dispatch. rewrite HphotIDs, HspecIDs, Hgroups.
  by eexists.
Qed.

(** The flag is set in every state from which the request goes out. *)
Lemma onSubmit_dispatch_isSubmitting store route_id st groupsFormData st1 data :
  onSubmit_dispatch store route_id st groupsFormData = (st1, Ok data) →
  isSubmitting st1 = true.
Proof.
  unfold onSubmit_dispatch. intros Hd.
  destruct (selectedIDs _ (selectedPhotRows st)); [|by simplify_eq].
  destruct (selectedIDs _ (selectedSpecRows st)); [|by simplify_eq].
  destruct (groupsFormData !! "groups") as [[]|]; by simplify_eq.
Qed.

Lemma handle_isSubmitting st ev : isSubmitting (handle st ev) = isSubmitting st.
Proof. by destruct ev. Qed.


Lemma render_submitDisabled store route_id st :
  render store route_id st = Loading
  ∨ render store route_id st = Page (isSubmitting st) (isSubmitting st).
Proof. unfold render. case_bool_decide; [by left|by right]. Qed.

End share_form_facts.


(** C9. When the share request has resolved, [isSubmitting] is false
    again; with status "success" the field [groups] and both row selections
    are empty and the notification was dispatched, with any other status
    the form and both row selections are what they were and nothing was
    dispatched. *)
Theorem share_request_resolved
    (result : ShareDataForm.Response) (st : ShareDataForm.State) :
  let st' := (ShareDataForm.onSubmit_resolved result st).1 in
  let dispatched := (ShareDataForm.onSubmit_resolved result st).2 in
  ShareDataForm.isSubmitting st' = false
  ∧ (ShareDataForm.status result = lit "success" →
     getValues (ShareDataForm.form st') !! "groups" = Some (VGroups [])
     ∧ ShareDataForm.selectedPhotRows st' = []
     ∧ ShareDataForm.selectedSpecRows st' = []
     ∧ dispatched
       = [ShareDataForm.showNotification (lit "Data successfully shared")])
  ∧ (ShareDataForm.status result ≠ lit "success" →
     ShareDataForm.form st' = ShareDataForm.form st
     ∧ ShareDataForm.selectedPhotRows st' = ShareDataForm.selectedPhotRows st
     ∧ ShareDataForm.selectedSpecRows st' = ShareDataForm.selectedSpecRows st
     ∧ dispatched = []).
Proof.
  cbv zeta. unfold ShareDataForm.onSubmit_resolved.
  case_bool_decide as Hstatus; simpl; by split_and!.
Qed.


(** The share request of the sample selection carries the ids of the
    selected rows and of the selected group. *)
Example onSubmit_dispatch_example :
  ShareDataForm.onSubmit_dispatch ShareFormSample.store "ZTF21abc"
    ShareFormSample.selected
    (getValues (ShareDataForm.form ShareFormSample.selected))
  = (ShareDataForm.setIsSubmitting true ShareFormSample.selected,
     Ok {| ShareDataForm.groupIDs := [5%Z];
           ShareDataForm.photometryIDs := [11%Z; 13%Z];
           ShareDataForm.spectrumIDs := [7%Z] |}).
Proof. by vm_compute. Qed.

(** After a successful share request the sample selection is gone; after a
    failed one it is still there. *)
Example onSubmit_resolved_examples :
  (ShareDataForm.onSubmit_resolved ShareFormSample.success
     (ShareDataForm.setIsSubmitting true ShareFormSample.selected)).1
  = ShareDataForm.initial
  ∧ (ShareDataForm.onSubmit_resolved ShareFormSample.failure
       (ShareDataForm.setIsSubmitting true ShareFormSample.selected)).1
    = ShareFormSample.selected.
Proof. split; by vm_compute. Qed.


(** ** Properties of the comment list *)

Section comment_list_facts.
Import CommentList.
Implicit Types (userProfile : Profile) (c : Comment) (hoverID : State).

Lemma handleMouseHover_allowed userProfile c hoverID :
  may_delete userProfile c →
  handleMouseHover (id c) userProfile (author c) hoverID = Some (id c).
Proof.
  intros [Hadmin|Hauthor]; unfold handleMouseHover, includes.
  - by rewrite bool_decide_eq_true_2.
  - rewrite (bool_decide_eq_true_2 (username _ = _)); [|done].
    by rewrite orb_true_r.
Qed.

Lemma handleMouseHover_refused userProfile c hoverID :
  ¬ may_delete userProfile c →
  handleMouseHover (id c) userProfile (author c) hoverID = hoverID.
Proof.
  intros Hno. unfold handleMouseHover, includes.
  rewrite !bool_decide_eq_false_2; [done| |].
  - intros ?. apply Hno. by right.
  - intros ?. apply Hno. by left.
Qed.

Lemma handle_hover_allowed userProfile comments hoverID ev :
  comment_of ev ∈ comments →
  hover_allowed userProfile comments hoverID →
  hover_allowed userProfile comments (handle userProfile hoverID ev).
Proof.
  intros Hin Hinv.
  assert (hover_allowed userProfile comments
            (handleMouseHover (id (comment_of ev)) userProfile
               (author (comment_of ev)) hoverID)) as Hhover.
  { destruct (decide (may_delete userProfile (comment_of ev))) as [Hyes|Hno].
    - rewrite handleMouseHover_allowed by done.
      intros i [= <-]. by exists (comment_of ev).
    - by rewrite handleMouseHover_refused. }
  destruct ev; simpl in *; try done; by intros i [=].
Qed.

Lemma run_hover_allowed userProfile comments evs :
  Forall (λ ev, comment_of ev ∈ comments) evs →
  hover_allowed userProfile comments (run userProfile evs).
Proof.
  unfold run. intros Hevs.
  assert (hover_allowed userProfile comments initial) as Hinit
    by (by intros i [=]).
  revert Hinit. generalize initial.
  induction Hevs as [|ev evs Hev _ IH]; intros hoverID Hinv; [done|].
  simpl. by apply IH, handle_hover_allowed.
Qed.

Lemma comment_of_id (comments : list Comment) c c' :
  NoDup (id <$> comments) → c ∈ comments → c' ∈ comments →
  id c = id c' → c = c'.
Proof.
  intros Hnd (i & Hi)%list_elem_of_lookup (j & Hj)%list_elem_of_lookup Hid.
  assert (i = j) as ->.
  { eapply NoDup_lookup; [exact Hnd| |].
    - by rewrite list_lookup_fmap, Hi.
    - by rewrite list_lookup_fmap, Hj, Hid. }
  congruence.
Qed.

End comment_list_facts.

(** C10. A hover over a comment sets [hoverID] to its id when the viewing
    user has the role "Super admin" or is the author of the comment. For any
    other user the hover leaves [hoverID] as it is, so a hidden delete button
    of the comment stays hidden; and over any sequence of hover and leave
    events on comments with distinct ids, the delete button of the comment is
    hidden for such a user. *)
Theorem delete_button_for_admin_or_author
    (userProfile : CommentList.Profile) (c : CommentList.Comment)
    (hoverID : CommentList.State) :
  (CommentList.may_delete userProfile c →
   CommentList.handleMouseHover (CommentList.id c) userProfile
     (CommentList.author c) hoverID = Some (CommentList.id c))
  ∧ (¬ CommentList.may_delete userProfile c →
     CommentList.handleMouseHover (CommentList.id c) userProfile
       (CommentList.author c) hoverID = hoverID
     ∧ (CommentList.deleteButton hoverID (CommentList.id c)
        = CommentList.none →
        CommentList.deleteButton
          (CommentList.handleMouseHover (CommentList.id c) userProfile
             (CommentList.author c) hoverID)
          (CommentList.id c) = CommentList.none))
  ∧ (∀ (comments : list CommentList.Comment) (evs : list CommentList.Event),
       NoDup (CommentList.id <$> comments) →
       Forall (λ ev, CommentList.comment_of ev ∈ comments) evs →
       c ∈ comments →
       ¬ CommentList.may_delete userProfile c →
       CommentList.deleteButton (CommentList.run userProfile evs)
         (CommentList.id c) = CommentList.none).
Proof.
  split_and!.
  - apply handleMouseHover_allowed.
  - intros Hno. by rewrite handleMouseHover_refused.
  - intros comments evs Hnd Hevs Hc Hno.
    unfold CommentList.deleteButton. case_bool_decide as Hhover; [|done].
    destruct (run_hover_allowed userProfile comments evs Hevs _ Hhover)
      as (c' & Hc' & Hid & Hmay).
    destruct Hno. by rewrite (comment_of_id comments c c' Hnd Hc Hc').
Qed.

Lemma delete_button_for_admin_or_author_witness :
  CommentList.deleteButton
    (CommentList.run CommentListSample.bob CommentListSample.hovers)
    (CommentList.id CommentListSample.by_alice) = CommentList.none
  ∧ CommentList.deleteButton
      (CommentList.run CommentListSample.bob CommentListSample.hovers)
      (CommentList.id CommentListSample.by_bob) = CommentList.block.
Proof.
  split; [|by vm_compute].
  apply (delete_button_for_admin_or_author CommentListSample.bob
           CommentListSample.by_alice None)
    with (comments := [CommentListSample.by_alice; CommentListSample.by_bob]).
  - apply NoDup_cons_2; [|apply NoDup_singleton].
    by intros [=]%list_elem_of_singleton.
  - unfold CommentListSample.hovers.
    repeat (apply Forall_cons_2; [set_solver|]). apply Forall_nil_2.
  - left.
  - intros [Hadmin|Hauthor].
    + apply list_elem_of_singleton in Hadmin. by vm_compute in Hadmin.
    + by vm_compute in Hauthor.
Defined.

(** ** Further properties of the filter form *)

Section group_chips_facts.
Import SourceTableFilterForm GroupChips.

Lemma find_app {A} (p : A → bool) (l1 l2 : list A) :
  List.find p (l1 ++ l2)
  = match List.find p l1 with
    | Some x => Some x
    | None => List.find p l2
    end.
Proof.
  induction l1 as [|x l1 IH]; simpl; [done|]. by destruct (p x).
Qed.

Lemma foldl_groupIDToName_lookup (gs : list Group.t) (m : gmap Z jsstring) i :
  foldl (λ m g, <[Group.id g := Group.name g]> m) m gs !! i
  = match last_with_id gs i with
    | Some g => Some (Group.name g)
    | None => m !! i
    end.
Proof.
  revert m. induction gs as [|g gs IH]; intros m; [done|].
  simpl. rewrite IH. unfold last_with_id.
  rewrite reverse_cons, find_app. destruct (List.find _ (reverse gs)); [done|].
  simpl. rewrite lookup_insert. case_bool_decide; by case_decide.
Qed.

Lemma last_with_id_Some (gs : list Group.t) i g :
  last_with_id gs i = Some g → g ∈ gs ∧ Group.id g = i.
Proof.
  unfold last_with_id. intros [Hin Hid]%find_some.
  rewrite <- list_elem_of_In, elem_of_reverse in Hin.
  by apply bool_decide_eq_true in Hid.
Qed.

Lemma last_with_id_None (gs : list Group.t) i :
  last_with_id gs i = None → i ∉ Group.id <$> gs.
Proof.
  unfold last_with_id. intros Hnone (g & -> & Hin)%list_elem_of_fmap.
  assert (bool_decide (Group.id g = Group.id g) = false) as Hno.
  { apply (find_none _ _ Hnone g).
    by rewrite <- list_elem_of_In, elem_of_reverse. }
  by apply bool_decide_eq_false in Hno.
Qed.

Lemma last_with_id_NoDup (gs : list Group.t) g :
  NoDup (Group.id <$> gs) → g ∈ gs → last_with_id gs (Group.id g) = Some g.
Proof.
  intros Hnd Hg. destruct (last_with_id gs (Group.id g)) as [g'|] eqn:Hl.
  - apply last_with_id_Some in Hl as [Hg' Hid]. f_equal.
    apply list_elem_of_lookup in Hg as [j Hj].
    apply list_elem_of_lookup in Hg' as [j' Hj'].
    assert (j' = j) as ->; [|congruence].
    eapply NoDup_lookup; [exact Hnd| |].
    + by rewrite list_lookup_fmap, Hj'.
    + by rewrite list_lookup_fmap, Hj, Hid.
  - apply last_with_id_None in Hl. destruct Hl.
    apply list_elem_of_fmap. by exists g.
Qed.

Lemma groupIDToName_supplied (gs : list Group.t) :
  ∃ m,
    groupIDToName (Some gs) = Ok m
    ∧ ∀ i, m !! i = Group.name <$> last_with_id gs i.
Proof.
  eexists. split; [done|].
  intros i. rewrite foldl_groupIDToName_lookup.
  by destruct (last_with_id gs i).
Qed.

End group_chips_facts.

(** X1. For a supplied group list, [groupIDToName] has exactly the ids of
    the groups as keys and maps an id to the name of the last group of the
    list that carries it. *)
Theorem groupIDToName_lookup (gs : list Group.t) :
  ∃ m,
    SourceTableFilterForm.groupIDToName (Some gs) = Ok m
    ∧ (∀ i, m !! i = Group.name <$> GroupChips.last_with_id gs i)
    ∧ ∀ i, is_Some (m !! i) ↔ i ∈ Group.id <$> gs.
Proof.
  destruct (groupIDToName_supplied gs) as (m & Hm & Hlookup).
  exists m. split; [done|].
  split; [done|]. intros i. rewrite Hlookup. split.
  - intros [n Hn].
    destruct (GroupChips.last_with_id gs i) as [g|] eqn:Hl; [|done].
    apply last_with_id_Some in Hl as [Hg <-].
    apply list_elem_of_fmap. by exists g.
  - intros Hi.
    destruct (GroupChips.last_with_id gs i) as [g|] eqn:Hl; [by eexists|].
    by apply last_with_id_None in Hl.
Qed.

(** X2. When the ids of the supplied groups are distinct, the chips of a
    selection of these groups are labelled with their names, in the order
    of the selection. *)
Theorem chips_of_selected_groups (gs sel : list Group.t) :
  NoDup (Group.id <$> gs) →
  sel ⊆ gs →
  GroupChips.chips (Some gs) (Group.id <$> sel)
  = Ok ((λ g, Some (Group.name g)) <$> sel).
Proof.
  intros Hnd Hsel.
  destruct (groupIDToName_supplied gs) as (m & Hm & Hlookup).
  unfold GroupChips.chips. rewrite Hm. simpl. f_equal.
  unfold GroupChips.renderValue. rewrite <- list_fmap_compose.
  apply list_fmap_ext. intros j g Hj. simpl.
  rewrite Hlookup, (last_with_id_NoDup gs g Hnd); [done|].
  apply Hsel. by eapply list_elem_of_lookup_2.
Qed.

Lemma chips_of_selected_groups_witness :
  GroupChips.chips (Some [Sample.group3; Sample.group5])
    [5%Z; 3%Z]
  = Ok [Some (lit "ZTF"); Some (lit "Sitewide")].
Proof.
  apply (chips_of_selected_groups [Sample.group3; Sample.group5]
           [Sample.group5; Sample.group3]).
  - apply NoDup_cons_2; [|apply NoDup_singleton].
    by intros [=]%list_elem_of_singleton.
  - apply (bool_decide_unpack _). by vm_compute.
Defined.

Section filter_session_facts.
Import SourceTableFilterForm.
Context {Hierarchy : Type} (allowedClasses : Hierarchy → list ClassOption.t).
Context (requiredOnArrays : bool).
Implicit Types (props : Props) (st : State) (view : View) (ev : Event).
Implicit Types (taxonomyList : list (Taxonomy.t Hierarchy)).


Lemma step_inv props taxonomyList gs st ev :
  groups props = Some gs →
  ∃ view,
    render allowedClasses props taxonomyList st = Ok view
    ∧ step allowedClasses requiredOnArrays props taxonomyList st ev
      = Ok (if delivered view ev
            then handle requiredOnArrays props view st ev else (st, [])).
Proof.
  intros Hg.
  destruct (render_defined allowedClasses props taxonomyList st gs Hg)
    as [view Hview].
  exists view. split; [done|]. unfold step. by rewrite Hview.
Qed.

Lemma run_cons props taxonomyList st ev evs st1 cs1 :
  step allowedClasses requiredOnArrays props taxonomyList st ev
  = Ok (st1, cs1) →
  run allowedClasses requiredOnArrays props taxonomyList st (ev :: evs)
  = (r ← run allowedClasses requiredOnArrays props taxonomyList st1 evs;
     Ok (r.1, cs1 ++ r.2)).
Proof. intros Hstep. cbn [run]. by rewrite Hstep. Qed.







Lemma form_with_form (f : Form → Form) st : form (with_form f st) = f (form st).
Proof. reflexivity. Qed.




Lemma step_submit_blocked props taxonomyList gs st :
  groups props = Some gs →
  fieldValues (form st) !! "groupIds" = Some (VInts []) →
  step allowedClasses requiredOnArrays props taxonomyList st SubmitClick
  = Ok (with_form
          (λ _, {| fieldValues := fieldValues (form st);
                   errors := MissingRequiredSelection requiredOnArrays |})
          st, []).
Proof.
  intros Hg Hempty.
  destruct (step_inv props taxonomyList gs st SubmitClick Hg)
    as (view & Hview & ->).
  change (delivered view SubmitClick) with true. cbv iota. unfold handle.
  by rewrite (onSubmit_blocked allowedClasses requiredOnArrays props
                taxonomyList st view Hview Hempty).
Qed.

Lemma step_submit_forwarded props taxonomyList gs st :
  groups props = Some gs →
  noSelection (fieldValues (form st) !! "groupIds") = false →
  step allowedClasses requiredOnArrays props taxonomyList st SubmitClick
  = Ok (with_form
          (λ _, {| fieldValues := fieldValues (form st); errors := ∅ |}) st,
        [fieldValues (form st)]).
Proof.
  intros Hg Hfull.
  destruct (step_inv props taxonomyList gs st SubmitClick Hg)
    as (view & Hview & ->).
  change (delivered view SubmitClick) with true. cbv iota. unfold handle.
  by rewrite (onSubmit_forwarded allowedClasses requiredOnArrays props
                taxonomyList st view Hview Hfull).
Qed.



(** X6. The form has no guard against repeated submission: with a group
    selected, [n] clicks on Submit in a row call [handleFilterSubmit] [n]
    times, each time with the same values, and leave the values as they
    were. *)
Theorem every_submit_click_calls props taxonomyList gs st (n : nat) :
  groups props = Some gs →
  noSelection (fieldValues (form st) !! "groupIds") = false →
  ∃ st',
    run allowedClasses requiredOnArrays props taxonomyList st
      (replicate n SubmitClick)
    = Ok (st', replicate n (fieldValues (form st)))
    ∧ fieldValues (form st') = fieldValues (form st).
Proof.
  intros Hg. revert st. induction n as [|n IH]; intros st Hfull.
  - by exists st.
  - pose proof (step_submit_forwarded props taxonomyList gs st Hg Hfull)
      as Hstep.
    destruct (IH (with_form
                    (λ _, {| fieldValues := fieldValues (form st);
                             errors := ∅ |}) st)) as (st' & Hrun & Hvals);
      [done|].
    exists st'. split; [|done].
    cbn [replicate]. rewrite (run_cons _ _ _ _ _ _ _ Hstep), Hrun.
    reflexivity.
Qed.

(** X7. A refused submit can be repaired: after a submit without a
    selected group, selecting a group of the list and submitting again
    calls [handleFilterSubmit] once, with the values of before and the
    selected group, and clears the error. *)
Theorem refused_submit_repaired props taxonomyList gs st (g : Group.t) :
  groups props = Some gs →
  g ∈ gs →
  fieldValues (form st) !! "groupIds" = Some (VInts []) →
  ∃ st',
    run allowedClasses requiredOnArrays props taxonomyList st
      [SubmitClick; GroupIdsChange [Group.id g]; SubmitClick]
    = Ok (st', [<["groupIds" := VInts [Group.id g]]> (fieldValues (form st))])
    ∧ errors (form st') = ∅.
Proof.
  intros Hg Hin Hempty.
  pose proof (step_submit_blocked props taxonomyList gs st Hg Hempty)
    as Hstep1.
  destruct (step_edit allowedClasses requiredOnArrays props taxonomyList gs
              (with_form
                 (λ _, {| fieldValues := fieldValues (form st);
                          errors :=
                            MissingRequiredSelection requiredOnArrays |})
                 st)
              (GroupIdsChange [Group.id g]) "groupIds"
              (VInts [Group.id g]) Hg eq_refl) as (st2 & Hstep2 & Hvals2).
  { apply bool_decide_eq_true. intros i Hi.
    apply list_elem_of_singleton in Hi as ->.
    apply list_elem_of_fmap. by exists g. }
  rewrite form_with_form in Hvals2. cbn [fieldValues] in Hvals2.
  pose proof (step_submit_forwarded props taxonomyList gs st2 Hg) as Hstep3.
  rewrite Hvals2 in Hstep3. rewrite lookup_insert_eq in Hstep3.
  specialize (Hstep3 eq_refl).
  eexists. split.
  - rewrite (run_cons _ _ _ _ _ _ _ Hstep1), (run_cons _ _ _ _ _ _ _ Hstep2),
      (run_cons _ _ _ _ _ _ _ Hstep3).
    reflexivity.
  - done.
Qed.

(** X8. The classification option set depends only on which taxonomies the
    list holds, not on their order or on repetitions. *)
Theorem classifications_of_same_taxonomies
    (taxonomyList1 taxonomyList2 : list (Taxonomy.t Hierarchy)) :
  (∀ t, t ∈ taxonomyList1 ↔ t ∈ taxonomyList2) →
  classifications allowedClasses taxonomyList1
  = classifications allowedClasses taxonomyList2.
Proof.
  intros Hsame.
  apply (StronglySorted_unique_strong str_lt).
  - intros x y _ _ Hxy Hyx. apply str_ltb_asym in Hxy.
    unfold str_lt in Hyx. congruence.
  - apply classifications_sorted.
  - apply classifications_sorted.
  - apply NoDup_Permutation; [apply classifications_NoDup..|].
    intros l. rewrite !classifications_elem_of.
    split; intros (t & o & Ht & Hrest); exists t, o;
      (split; [by apply Hsame|done]).
Qed.

End filter_session_facts.






Lemma every_submit_click_calls_witness :
  ∃ st',
    SourceTableFilterForm.run Sample.extractor false FilterFormSample.props
      [Sample.T1] (FilterSessionSample.after FilterSessionSample.selecting)
      [SourceTableFilterForm.SubmitClick; SourceTableFilterForm.SubmitClick;
       SourceTableFilterForm.SubmitClick]
    = Ok (st',
          replicate 3
            (fieldValues
               (SourceTableFilterForm.form
                  (FilterSessionSample.after FilterSessionSample.selecting)))).
Proof.
  destruct (every_submit_click_calls Sample.extractor false
              FilterFormSample.props [Sample.T1]
              [Sample.group3; Sample.group5]
              (FilterSessionSample.after FilterSessionSample.selecting) 3)
    as (st' & Hrun & _).
  - reflexivity.
  - vm_compute. reflexivity.
  - exists st'. exact Hrun.
Defined.

Lemma refused_submit_repaired_witness :
  ∃ st' snap,
    SourceTableFilterForm.run Sample.extractor false FilterFormSample.props
      [Sample.T1]
      (SourceTableFilterForm.initial (Some [Sample.group3; Sample.group5]))
      [SourceTableFilterForm.SubmitClick;
       SourceTableFilterForm.GroupIdsChange [3%Z];
       SourceTableFilterForm.SubmitClick]
    = Ok (st', [snap])
    ∧ snap !! "groupIds" = Some (VInts [3%Z])
    ∧ errors (SourceTableFilterForm.form st') = ∅.
Proof.
  destruct (refused_submit_repaired Sample.extractor false
              FilterFormSample.props [Sample.T1]
              [Sample.group3; Sample.group5]
              (SourceTableFilterForm.initial
                 (Some [Sample.group3; Sample.group5]))
              Sample.group3)
    as (st' & Hrun & Herrors).
  - reflexivity.
  - left.
  - vm_compute. reflexivity.
  - eexists st', _. split; [exact Hrun|]. split; [|exact Herrors].
    apply lookup_insert_eq.
Defined.

Lemma classifications_of_same_taxonomies_witness :
  SourceTableFilterForm.classifications Sample.extractor
    [Sample.T1; Sample.T1_old; Sample.T1]
  = SourceTableFilterForm.classifications Sample.extractor
      [Sample.T1_old; Sample.T1].
Proof.
  apply (classifications_of_same_taxonomies Sample.extractor).
  intros t. rewrite !elem_of_cons, !elem_of_nil. tauto.
Defined.

(** ** Further properties of the data-sharing form *)

Section share_page_facts.
Import ShareDataForm SharePage.
Context (requiredOnArrays : bool).
Implicit Types (store : Store) (st : State) (result : Response).

(** X9. [selectedIDs] returns exactly when every selected index is one of
    the table, and then returns the ids of the rows at these indices, in
    the order of the selection. An empty selection returns even when the
    table is not in the store; any other selection throws then. *)
Theorem selectedIDs_spec (table : option (list Row)) (rows : list nat)
    (ids : list Z) :
  selectedIDs table rows = Ok ids
  ↔ Forall2 (λ idx i, ∃ t row, table = Some t ∧ t !! idx = Some row
                               ∧ id row = i) rows ids.
Proof.
  revert ids. induction rows as [|idx rows IH]; intros ids; simpl.
  - split.
    + intros [= <-]. constructor.
    + intros Hnil. by apply Forall2_nil_inv_l in Hnil as ->.
  - destruct table as [t|].
    + destruct (t !! idx) as [row|] eqn:Hrow.
      * destruct (selectedIDs (Some t) rows) as [ids'|e] eqn:Hrest; simpl.
        -- split.
           ++ intros [= <-]. constructor; [by exists t, row|by apply IH].
           ++ intros (i & ids'' & (t' & row' & [= <-] & Hrow' & <-) & Hall
                      & ->)%Forall2_cons_inv_l.
              apply IH in Hall. simplify_eq. done.
        -- split; [done|].
           intros (i & ids'' & _ & Hall & ->)%Forall2_cons_inv_l.
           by apply IH in Hall.
      * split; [done|].
        intros (i & ids'' & (t' & row' & [= <-] & Hrow' & _) & _)
                 %Forall2_cons_inv_l.
        congruence.
    + split; [done|].
      by intros (i & ids'' & (t' & row' & [=] & _) & _)%Forall2_cons_inv_l.
Qed.

Lemma validateFields_share (vals : gmap string value) gs :
  vals !! "groups" = Some (VGroups gs) →
  validateFields requiredOnArrays vals fields
  = Ok (if bool_decide (1 ≤ length gs)%nat
        then ∅ else {[ "groups" := "validate" ]}).
Proof.
  intros Hgs. unfold fields. cbn [validateFields].
  unfold validateField. cbn [rules required validate RHF.name andb].
  unfold validateGroups. rewrite Hgs. by case_bool_decide.
Qed.

(** The two ways a submit can go. *)
Lemma submit_cases store route_id st gs :
  fieldValues (form st) !! "groups" = Some (VGroups gs) →
  submit requiredOnArrays store route_id st
  = if bool_decide (1 ≤ length gs)%nat
    then
      (with_form
         (λ _, {| fieldValues := fieldValues (form st); errors := ∅ |})
         (onSubmit_dispatch store route_id st (fieldValues (form st))).1,
       Some (onSubmit_dispatch store route_id st (fieldValues (form st))).2)
    else
      (with_form
         (λ _, {| fieldValues := fieldValues (form st);
                  errors := {[ "groups" := "validate" ]} |}) st,
       None).
Proof.
  intros Hgs. unfold submit, handleSubmit, getValues.
  rewrite (validateFields_share _ gs Hgs).
  destruct (bool_decide (1 ≤ length gs)%nat).
  - rewrite bool_decide_eq_true_2 by done. cbn [settled mbind result_bind].
    by destruct (onSubmit_dispatch _ _ _ _).
  - rewrite bool_decide_eq_false_2 by apply insert_non_empty.
    done.
Qed.

Lemma submit_refused store route_id st :
  fieldValues (form st) !! "groups" = Some (VGroups []) →
  submit requiredOnArrays store route_id st
  = (with_form
       (λ _, {| fieldValues := fieldValues (form st);
                errors := {[ "groups" := "validate" ]} |}) st,
     None).
Proof.
  intros Hgs. rewrite (submit_cases store route_id st [] Hgs).
  by rewrite bool_decide_eq_false_2 by (simpl; lia).
Qed.

(** X10. A submit of the data-sharing form without a selected group is
    refused: [onSubmit] does not run, so nothing is sent and
    [isSubmitting] and the row selections stay as they are, and the field
    [groups] gets an error, which the page shows as "Please select at least
    one group/user". *)
Theorem share_submit_without_groups store route_id st :
  fieldValues (form st) !! "groups" = Some (VGroups []) →
  ∃ st',
    submit requiredOnArrays store route_id st = (st', None)
    ∧ errors (form st') !! "groups" = Some "validate"
    ∧ fieldValues (form st') = fieldValues (form st)
    ∧ isSubmitting st' = isSubmitting st
    ∧ selectedPhotRows st' = selectedPhotRows st
    ∧ selectedSpecRows st' = selectedSpecRows st.
Proof.
  intros Hgs. rewrite (submit_refused store route_id st Hgs).
  eexists. split; [done|]. by split_and!.
Qed.

(** X11. A submit with at least one selected group and row selections that
    index into the tables sends one share request, which carries the ids of
    the selected groups and of the selected rows, sets [isSubmitting] and
    clears the error. *)
Theorem share_submit_with_groups store route_id st gs :
  fieldValues (form st) !! "groups" = Some (VGroups gs) →
  gs ≠ [] →
  rows_in_tables store route_id st →
  ∃ st' data,
    submit requiredOnArrays store route_id st = (st', Some (Ok data))
    ∧ groupIDs data = Group.id <$> gs
    ∧ selectedIDs (photometry store !! route_id) (selectedPhotRows st)
      = Ok (photometryIDs data)
    ∧ selectedIDs (spectra store !! route_id) (selectedSpecRows st)
      = Ok (spectrumIDs data)
    ∧ isSubmitting st' = true
    ∧ errors (form st') = ∅.
Proof.
  intros Hgs Hne Hrows. rewrite (submit_cases store route_id st gs Hgs).
  rewrite bool_decide_eq_true_2 by (destruct gs; [done|simpl; lia]).
  destruct (onSubmit_dispatch_defined store route_id st _ gs Hrows Hgs)
    as (data & Hd & Hids).
  rewrite Hd. cbn [fst snd]. eexists _, data. split; [done|].
  split; [done|].
  unfold onSubmit_dispatch in Hd.
  destruct (selectedIDs _ (selectedPhotRows st)) as [p|]; [|by simplify_eq].
  destruct (selectedIDs _ (selectedSpecRows st)) as [s|]; [|by simplify_eq].
  rewrite Hgs in Hd. injection Hd as <-. by split_and!.
Qed.

Lemma render_enabled store route_id st p :
  render store route_id st = Page false p → isSubmitting st = false.
Proof.
  destruct (render_submitDisabled store route_id st) as [->| ->]; [done|].
  by intros [= -> _].
Qed.

Lemma render_not_enabled store route_id st :
  isSubmitting st = true →
  (∀ p, render store route_id st ≠ Page false p).
Proof.
  intros Hs p Hr. apply render_enabled in Hr. congruence.
Qed.

Lemma handle_groups st ev :
  (∃ gs, fieldValues (form st) !! "groups" = Some (VGroups gs)) →
  ∃ gs, fieldValues (form (handle st ev)) !! "groups" = Some (VGroups gs).
Proof.
  intros [gs Hgs]. destruct ev as [rows|rows|data]; [by exists gs..|].
  exists data. apply lookup_insert_eq.
Qed.

Lemma onSubmit_resolved_groups result st :
  (∃ gs, fieldValues (form st) !! "groups" = Some (VGroups gs)) →
  ∃ gs, fieldValues (form (onSubmit_resolved result st).1) !! "groups"
        = Some (VGroups gs).
Proof.
  intros [gs Hgs]. unfold onSubmit_resolved.
  case_bool_decide; [by exists []|by exists gs].
Qed.

Lemma onSubmit_resolved_isSubmitting result st :
  isSubmitting (onSubmit_resolved result st).1 = false.
Proof. unfold onSubmit_resolved. by case_bool_decide. Qed.

Lemma onSubmit_dispatch_form store route_id st vals :
  form (onSubmit_dispatch store route_id st vals).1 = form st.
Proof.
  unfold onSubmit_dispatch.
  destruct (selectedIDs _ (selectedPhotRows st)); [|done].
  destruct (selectedIDs _ (selectedSpecRows st)); [|done].
  by destruct (vals !! "groups") as [[]|].
Qed.

(** The invariant of the page: the field [groups] holds an array of groups,
    and [isSubmitting] is set exactly while one request is pending. *)
Lemma step_in_flight store route_id w ev :
  (∃ gs, fieldValues (form (state w)) !! "groups" = Some (VGroups gs)) →
  (isSubmitting (state w) = true ∧ pending w = 1%nat
   ∨ isSubmitting (state w) = false ∧ pending w = 0%nat) →
  let w' := step requiredOnArrays store route_id w ev in
  (∃ gs, fieldValues (form (state w')) !! "groups" = Some (VGroups gs))
  ∧ (isSubmitting (state w') = true ∧ pending w' = 1%nat
     ∨ isSubmitting (state w') = false ∧ pending w' = 0%nat)
  ∧ (∀ data, sent w' = sent w ++ [data] → pending w = 0%nat)
  ∧ (sent w' = sent w ∨ ∃ data, sent w' = sent w ++ [data]).
Proof.
  intros Hgroups Hflag. cbv zeta.
  destruct ev as [ev| |result]; cbn [step].
  - destruct (delivered store route_id (state w) ev); cbn [state pending sent].
    + split_and!.
      * by apply handle_groups.
      * by rewrite handle_isSubmitting.
      * intros data Heq. apply (f_equal length) in Heq.
        rewrite length_app in Heq. simpl in Heq. lia.
      * by left.
    + split_and!; [done..| |by left].
      intros data Heq. apply (f_equal length) in Heq.
      rewrite length_app in Heq. simpl in Heq. lia.
  - destruct (render store route_id (state w)) as [|[] p] eqn:Hrender.
    + split_and!; [done..| |by left].
      intros data Heq. apply (f_equal length) in Heq.
      rewrite length_app in Heq. simpl in Heq. lia.
    + split_and!; [done..| |by left].
      intros data Heq. apply (f_equal length) in Heq.
      rewrite length_app in Heq. simpl in Heq. lia.
    + apply render_enabled in Hrender.
      destruct Hflag as [[? _]|[_ Hpending]]; [congruence|].
      destruct Hgroups as [gs Hgs].
      rewrite (submit_cases store route_id (state w) gs Hgs).
      case_bool_decide as Hlen.
      * pose proof (onSubmit_dispatch_form store route_id (state w)
                      (fieldValues (form (state w)))) as Hform.
        destruct (onSubmit_dispatch store route_id (state w)
                    (fieldValues (form (state w)))) as [st1 [data|e]] eqn:Hd;
          cbn [fst snd state pending sent] in *.
        -- apply onSubmit_dispatch_isSubmitting in Hd as Hs.
           split_and!; [by exists gs|left; by rewrite Hpending|done|eauto].
        -- assert (st1 = state w) as ->.
           { unfold onSubmit_dispatch in Hd.
             destruct (selectedIDs _ (selectedPhotRows (state w)));
               [|by simplify_eq].
             destruct (selectedIDs _ (selectedSpecRows (state w)));
               [|by simplify_eq].
             by rewrite Hgs in Hd. }
           split_and!; [by exists gs|by right|done|by left].
      * cbn [state pending sent].
        split_and!; [by exists gs|by right|done|by left].
  - destruct (pending w) as [|n] eqn:Hpending.
    + split_and!; [done|by rewrite Hpending|done|by left].
    + cbn [state pending sent].
      destruct Hflag as [[_ [= <-]]|[_ [=]]].
      split_and!.
      * by apply onSubmit_resolved_groups.
      * right. split; [apply onSubmit_resolved_isSubmitting|done].
      * intros data Heq. apply (f_equal length) in Heq.
        rewrite length_app in Heq. simpl in Heq. lia.
      * by left.
Qed.

(** X12. At most one share request is in flight: whatever the user does
    and whenever requests resolve, the page never has more than one pending
    request, [isSubmitting] is set exactly while there is one, and a click
    on Submit sends nothing while a request is pending. *)
Theorem one_share_request_in_flight store route_id
    (evs : list PageEvent) :
  let w := run requiredOnArrays store route_id start evs in
  (pending w ≤ 1)%nat
  ∧ (isSubmitting (state w) = true ↔ pending w = 1%nat)
  ∧ (pending w = 1%nat →
     sent (step requiredOnArrays store route_id w SubmitClick) = sent w).
Proof.
  cbv zeta.
  assert ((∃ gs, fieldValues (form (state
             (run requiredOnArrays store route_id start evs))) !! "groups"
                 = Some (VGroups gs))
          ∧ (isSubmitting (state
               (run requiredOnArrays store route_id start evs)) = true
             ∧ pending (run requiredOnArrays store route_id start evs)
               = 1%nat
             ∨ isSubmitting (state
                 (run requiredOnArrays store route_id start evs)) = false
               ∧ pending (run requiredOnArrays store route_id start evs)
                 = 0%nat)) as [Hgroups Hflag].
  { unfold run.
    assert ((∃ gs, fieldValues (form (state start)) !! "groups"
                   = Some (VGroups gs))
            ∧ (isSubmitting (state start) = true ∧ pending start = 1%nat
               ∨ isSubmitting (state start) = false
                 ∧ pending start = 0%nat)) as Hstart.
    { split; [by exists []|by right]. }
    revert Hstart. generalize start.
    induction evs as [|ev evs IH]; intros w Hw; [done|].
    simpl. apply IH. destruct Hw as [Hg Hf].
    destruct (step_in_flight store route_id w ev Hg Hf) as (? & ? & _).
    done. }
  split_and!.
  - destruct Hflag as [[_ ->]|[_ ->]]; lia.
  - destruct Hflag as [[-> ->]|[-> ->]]; done.
  - intros Hpending.
    destruct (step_in_flight store route_id _ SubmitClick Hgroups Hflag)
      as (_ & _ & Hnone & [Hsame|[data Hone]]); [done|].
    apply Hnone in Hone. congruence.
Qed.

(** X13. After a share request that resolved with status "success", a
    further click on Submit sends nothing until a group is selected again:
    the field [groups] was emptied, so the submit is refused. *)
Theorem no_second_share_after_success store route_id st result :
  status result = lit "success" →
  ∃ st',
    submit requiredOnArrays store route_id (onSubmit_resolved result st).1
    = (st', None)
    ∧ errors (form st') !! "groups" = Some "validate"
    ∧ selectedPhotRows st' = []
    ∧ selectedSpecRows st' = [].
Proof.
  intros Hstatus.
  assert (onSubmit_resolved result st
          = (setIsSubmitting false
               (setSelectedSpecRows []
                  (setSelectedPhotRows []
                     (with_form (reset fields {[ "groups" := VGroups [] ]})
                        st))),
             [showNotification (lit "Data successfully shared")]))
    as Hresolved.
  { unfold onSubmit_resolved. by rewrite bool_decide_eq_true_2. }
  rewrite Hresolved. cbn [fst].
  rewrite submit_refused by done.
  eexists. split; [done|]. by split_and!.
Qed.

(** X14. A share request that resolved with another status can be
    repeated as it was: the next click on Submit sends the same payload
    again and leads to the same state. *)
Theorem share_can_be_retried store route_id st st1 data result :
  isSubmitting st = false →
  submit requiredOnArrays store route_id st = (st1, Some (Ok data)) →
  status result ≠ lit "success" →
  submit requiredOnArrays store route_id (onSubmit_resolved result st1).1
  = (st1, Some (Ok data)).
Proof.
  intros Hidle Hsubmit Hstatus.
  unfold submit, handleSubmit, getValues in Hsubmit.
  destruct (validateFields requiredOnArrays (fieldValues (form st)) fields)
    as [errs|e] eqn:Hvalid; [|done].
  case_bool_decide as Herrs; [|done]. subst errs.
  cbn [settled mbind result_bind form_after] in Hsubmit.
  destruct (onSubmit_dispatch store route_id st (fieldValues (form st)))
    as [st0 sent0] eqn:Hd.
  injection Hsubmit as <- ->.
  assert (st0 = setIsSubmitting true st) as ->.
  { unfold onSubmit_dispatch in Hd.
    destruct (selectedIDs _ (selectedPhotRows st)); [|by simplify_eq].
    destruct (selectedIDs _ (selectedSpecRows st)); [|by simplify_eq].
    destruct (fieldValues (form st) !! "groups") as [[]|]; by simplify_eq. }
  unfold onSubmit_resolved. rewrite bool_decide_eq_false_2 by done.
  cbn [fst]. unfold submit, handleSubmit, getValues.
  cbn [form with_form setIsSubmitting fieldValues].
  rewrite Hvalid, bool_decide_eq_true_2 by done.
  cbn [settled mbind result_bind form_after].
  assert (onSubmit_dispatch store route_id
            (setIsSubmitting false
               (with_form
                  (λ _, {| fieldValues := fieldValues (form st);
                           errors := ∅ |})
                  (setIsSubmitting true st)))
            (fieldValues (form st))
          = (setIsSubmitting true
               (with_form
                  (λ _, {| fieldValues := fieldValues (form st);
                           errors := ∅ |}) st),
             Ok data)) as ->.
  { unfold onSubmit_dispatch in *.
    cbn [selectedPhotRows selectedSpecRows setIsSubmitting with_form].
    destruct (selectedIDs _ (selectedPhotRows st)); [|by simplify_eq].
    destruct (selectedIDs _ (selectedSpecRows st)); [|by simplify_eq].
    destruct (fieldValues (form st) !! "groups") as [[]|]; by simplify_eq. }
  done.
Qed.

End share_page_facts.

Lemma sample_rows_in_tables :
  ShareDataForm.rows_in_tables ShareFormSample.store "ZTF21abc"
    ShareFormSample.selected.
Proof.
  split; intros idx Hin.
  - exists [ {| ShareDataForm.id := 11%Z |}; {| ShareDataForm.id := 12%Z |};
             {| ShareDataForm.id := 13%Z |} ].
    split; [by vm_compute|].
    apply elem_of_cons in Hin as [->|Hin]; [by eexists|].
    apply elem_of_cons in Hin as [->|Hin]; [by eexists|].
    by apply elem_of_nil in Hin.
  - exists [ {| ShareDataForm.id := 7%Z |} ].
    split; [by vm_compute|].
    apply elem_of_cons in Hin as [->|Hin]; [by eexists|].
    by apply elem_of_nil in Hin.
Qed.

Lemma share_submit_without_groups_witness :
  ∃ st',
    SharePage.submit false ShareFormSample.store "ZTF21abc"
      ShareDataForm.initial = (st', None)
    ∧ errors (ShareDataForm.form st') !! "groups" = Some "validate"
    ∧ ShareDataForm.isSubmitting st' = false.
Proof.
  destruct (share_submit_without_groups false ShareFormSample.store
              "ZTF21abc" ShareDataForm.initial)
    as (st' & Hsubmit & Herr & _ & Hflag & _).
  - vm_compute. reflexivity.
  - exists st'. split; [exact Hsubmit|]. split; [exact Herr|exact Hflag].
Defined.

Lemma share_submit_with_groups_witness :
  ∃ st' data,
    SharePage.submit false ShareFormSample.store "ZTF21abc"
      ShareFormSample.selected = (st', Some (Ok data))
    ∧ ShareDataForm.groupIDs data = [5%Z]
    ∧ ShareDataForm.isSubmitting st' = true.
Proof.
  destruct (share_submit_with_groups false ShareFormSample.store "ZTF21abc"
              ShareFormSample.selected [Sample.group5])
    as (st' & data & Hsubmit & Hgroups & _ & _ & Hflag & _).
  - vm_compute. reflexivity.
  - discriminate.
  - exact sample_rows_in_tables.
  - exists st', data. split; [exact Hsubmit|]. split; [exact Hgroups|exact Hflag].
Defined.

Lemma no_second_share_after_success_witness :
  ∃ st',
    SharePage.submit false ShareFormSample.store "ZTF21abc"
      (ShareDataForm.onSubmit_resolved ShareFormSample.success
         (ShareDataForm.setIsSubmitting true ShareFormSample.selected)).1
    = (st', None)
    ∧ ShareDataForm.selectedPhotRows st' = [].
Proof.
  destruct (no_second_share_after_success false ShareFormSample.store
              "ZTF21abc"
              (ShareDataForm.setIsSubmitting true ShareFormSample.selected)
              ShareFormSample.success)
    as (st' & Hsubmit & _ & Hphot & _).
  - reflexivity.
  - exists st'. split; [exact Hsubmit|exact Hphot].
Defined.

Lemma share_can_be_retried_witness :
  ∃ st1 data,
    SharePage.submit false ShareFormSample.store "ZTF21abc"
      ShareFormSample.selected = (st1, Some (Ok data))
    ∧ SharePage.submit false ShareFormSample.store "ZTF21abc"
        (ShareDataForm.onSubmit_resolved ShareFormSample.failure st1).1
      = (st1, Some (Ok data)).
Proof.
  assert (∃ st1 data,
            SharePage.submit false ShareFormSample.store "ZTF21abc"
              ShareFormSample.selected = (st1, Some (Ok data)))
    as (st1 & data & Hsubmit).
  { vm_compute. by eexists _, _. }
  exists st1, data. split; [exact Hsubmit|].
  apply (share_can_be_retried false ShareFormSample.store "ZTF21abc"
           ShareFormSample.selected st1 data ShareFormSample.failure).
  - reflexivity.
  - exact Hsubmit.
  - vm_compute. discriminate.
Defined.

Section share_table_facts.
Import ShareDataForm ShareDataTable.
Context {Number : Type} (toFixed : Number → nat → jsstring).

(** X15. The tables show the data [onSubmit] reads: the ids sent for a
    selection of the photometry table are the ids in the cells of the
    selected rows, whatever [toFixed] makes of the numbers, and likewise
    for the table of spectra. *)
Theorem sent_ids_are_those_of_the_selected_rows
    (photometry : list (Phot Number)) (spectra : list Spectrum.t)
    (photSelected specSelected : list nat) (photIDs specIDs : list Z) :
  selectedIDs (Some (phot_row Number <$> photometry)) photSelected
  = Ok photIDs →
  selectedIDs (Some (spec_row <$> spectra)) specSelected = Ok specIDs →
  Forall2 (λ idx i, ∃ row, photRows Number toFixed (Some photometry) !! idx
                           = Some row ∧ row_id row = i)
    photSelected photIDs
  ∧ Forall2 (λ idx i, ∃ row, specRows (Some spectra) !! idx = Some row
                             ∧ SpecRow.id row = i)
      specSelected specIDs.
Proof.
  intros Hphot Hspec. split.
  - clear Hspec. revert photIDs Hphot.
    induction photSelected as [|idx rows IH]; intros ids Hids;
      simpl in Hids.
    + injection Hids as <-. constructor.
    + rewrite list_lookup_fmap in Hids.
      destruct (photometry !! idx) as [phot|] eqn:Hidx; [|done].
      simpl in Hids.
      destruct (selectedIDs _ rows) as [ids'|]; [|done].
      injection Hids as <-. constructor; [|by apply IH].
      eexists. split.
      * unfold photRows. by rewrite list_lookup_fmap, Hidx.
      * reflexivity.
  - clear Hphot. revert specIDs Hspec.
    induction specSelected as [|idx rows IH]; intros ids Hids;
      simpl in Hids.
    + injection Hids as <-. constructor.
    + rewrite list_lookup_fmap in Hids.
      destruct (spectra !! idx) as [spec|] eqn:Hidx; [|done].
      simpl in Hids.
      destruct (selectedIDs _ rows) as [ids'|]; [|done].
      injection Hids as <-. constructor; [|by apply IH].
      eexists. split.
      * unfold specRows. by rewrite list_lookup_fmap, Hidx.
      * reflexivity.
Qed.

End share_table_facts.

Lemma sent_ids_are_those_of_the_selected_rows_witness :
  Forall2
    (λ idx i,
       ∃ row,
         ShareDataTable.photRows Z (λ x _, [N.of_nat (Z.to_nat x)])
           (Some
              [ {| ShareDataTable.id := 11; ShareDataTable.mjd := 59000%Z;
                   ShareDataTable.mag := None;
                   ShareDataTable.magerr := Some 1%Z;
                   ShareDataTable.limiting_mag := 20%Z;
                   ShareDataTable.instrument_name := lit "ZTF";
                   ShareDataTable.filter := lit "ztfg";
                   ShareDataTable.groups := [Sample.group3] |} ]) !! idx
         = Some row
         ∧ ShareDataTable.row_id row = i)
    [0%nat] [11%Z]
  ∧ Forall2
      (λ idx i,
         ∃ row,
           ShareDataTable.specRows
             (Some
                [ {| Spectrum.id := 7;
                     Spectrum.instrument_name := lit "SEDM";
                     Spectrum.observed_at := lit "2020-05-01";
                     Spectrum.groups := [Sample.group3; Sample.group5] |} ])
           !! idx = Some row
           ∧ SpecRow.id row = i)
      [0%nat] [7%Z].
Proof.
  apply (sent_ids_are_those_of_the_selected_rows
           (λ x _, [N.of_nat (Z.to_nat x)])); reflexivity.
Defined.

(** ** Further properties of the comment list *)

Section comment_actions_facts.
Import CommentList.
Implicit Types (userProfile : Profile) (c : Comment).

Lemma deleteButton_block (hoverID : State) (i : Z) :
  deleteButton hoverID i = block ↔ hoverID = Some i.
Proof. unfold deleteButton. by case_bool_decide. Qed.

Lemma step_deletable userProfile (comments : list Comment)
    (s : State * list Z) (ev : CommentActions.Event) :
  CommentActions.comment_of ev ∈ comments →
  hover_allowed userProfile comments s.1 →
  (∀ i, i ∈ s.2 → ∃ c, c ∈ comments ∧ id c = i ∧ may_delete userProfile c) →
  hover_allowed userProfile comments (CommentActions.step userProfile s ev).1
  ∧ (∀ i, i ∈ (CommentActions.step userProfile s ev).2 →
          ∃ c, c ∈ comments ∧ id c = i ∧ may_delete userProfile c).
Proof.
  intros Hin Hhover Hdeleted. destruct ev as [ev|c]; simpl in *.
  - split; [by apply handle_hover_allowed|done].
  - destruct (deleteButton s.1 (id c)) eqn:Hbutton; [|done].
    apply deleteButton_block in Hbutton. simpl. split; [done|].
    intros i [Hold| ->%list_elem_of_singleton]%elem_of_app; [by apply Hdeleted|].
    by apply Hhover.
Qed.

(** X16. Whatever the pointer does and wherever the user clicks, every
    [deleteComment] the list dispatches is for a comment that the viewing
    user wrote, unless the user is a super admin; a user who may delete no
    comment of the list dispatches none. *)
Theorem only_deletable_comments_are_deleted userProfile
    (comments : list Comment) (evs : list CommentActions.Event) :
  Forall (λ ev, CommentActions.comment_of ev ∈ comments) evs →
  (∀ i, i ∈ (CommentActions.run userProfile evs).2 →
        ∃ c, c ∈ comments ∧ id c = i ∧ may_delete userProfile c)
  ∧ ((∀ c, c ∈ comments → ¬ may_delete userProfile c) →
     (CommentActions.run userProfile evs).2 = []).
Proof.
  intros Hevs.
  assert (∀ i, i ∈ (CommentActions.run userProfile evs).2 →
               ∃ c, c ∈ comments ∧ id c = i ∧ may_delete userProfile c)
    as Hall.
  { unfold CommentActions.run.
    assert (hover_allowed userProfile comments (initial, @nil Z).1
            ∧ (∀ i, i ∈ (initial, @nil Z).2 →
                    ∃ c, c ∈ comments ∧ id c = i ∧ may_delete userProfile c))
      as Hinit.
    { split; [by intros i [=]|]. by intros i Hin%elem_of_nil. }
    revert Hinit. generalize (initial, @nil Z).
    induction Hevs as [|ev evs Hev _ IH]; intros s [Hhover Hdeleted];
      [done|].
    simpl. by apply IH, step_deletable. }
  split; [exact Hall|].
  intros Hnone.
  destruct ((CommentActions.run userProfile evs).2) as [|i ids]; [done|].
  destruct (Hall i) as (c & Hc & _ & Hmay); [left|].
  by destruct (Hnone c Hc).
Qed.

Lemma only_deletable_comments_are_deleted_witness :
  (CommentActions.run CommentListSample.bob
     [ CommentActions.Pointer (MouseOver CommentListSample.by_bob);
       CommentActions.DeleteClick CommentListSample.by_alice;
       CommentActions.DeleteClick CommentListSample.by_bob ]).2 = [2%Z]
  ∧ ∀ i,
      i ∈ (CommentActions.run CommentListSample.bob
             [ CommentActions.Pointer (MouseOver CommentListSample.by_bob);
               CommentActions.DeleteClick CommentListSample.by_alice;
               CommentActions.DeleteClick CommentListSample.by_bob ]).2 →
      ∃ c, c ∈ [CommentListSample.by_alice; CommentListSample.by_bob]
           ∧ id c = i ∧ may_delete CommentListSample.bob c.
Proof.
  split; [reflexivity|].
  apply (only_deletable_comments_are_deleted CommentListSample.bob
           [CommentListSample.by_alice; CommentListSample.by_bob]).
  repeat (apply Forall_cons_2; [simpl; set_solver|]).
  apply Forall_nil_2.
Defined.

End comment_actions_facts.

Section emoji_facts.
Import CommentActions.
Implicit Types (f : jsstring → jsstring) (text w : jsstring).

Lemma replace_names_unknown f pending text :
  (∀ name, f name = name) →
  replace_names f pending text
  = match pending with
    | None => text
    | Some w => 58 :: w ++ text
    end.
Proof.
  intros Hf. revert pending.
  induction text as [|c text IH]; intros [w|]; simpl.
  - by rewrite app_nil_r.
  - done.
  - destruct (is_word c).
    + rewrite IH. by rewrite <- app_assoc.
    + destruct (N.eqb_spec c 58) as [->|Hc].
      * destruct w as [|d w]; [by rewrite IH|].
        rewrite Hf, IH. simpl. by rewrite <- app_assoc.
      * by rewrite IH.
  - destruct (N.eqb_spec c 58) as [->|Hc]; by rewrite IH.
Qed.

Lemma replace_names_no_colon f pre text :
  58 ∉ pre →
  replace_names f None (pre ++ text) = pre ++ replace_names f None text.
Proof.
  induction pre as [|c pre IH]; intros Hpre; [done|].
  apply not_elem_of_cons in Hpre as [Hc Hpre].
  cbn [app replace_names].
  destruct (N.eqb_spec c 58) as [->|_]; [done|].
  by rewrite IH.
Qed.

Lemma replace_names_word f acc w text :
  Forall (λ c, is_word c = true) w →
  replace_names f (Some acc) (w ++ text)
  = replace_names f (Some (acc ++ w)) text.
Proof.
  intros Hw. revert acc.
  induction Hw as [|c w Hc _ IH]; intros acc; [by rewrite app_nil_r|].
  cbn [app replace_names]. rewrite Hc, IH. by rewrite <- app_assoc.
Qed.

(** X17. [emojiSupport] leaves a text as it is when the dictionary has no
    emoji, or only an empty text, for every name: what stands between
    colons then stays, colons included. *)
Theorem emojiSupport_without_emoji
    (getUnicode : jsstring → option jsstring) text :
  (∀ name, getUnicode name = None ∨ getUnicode name = Some []) →
  emojiSupport getUnicode text = text.
Proof.
  intros Hnone. unfold emojiSupport.
  rewrite replace_names_unknown; [done|].
  intros name. by destruct (Hnone name) as [-> | ->].
Qed.

(** X18. [emojiSupport] replaces the first name of a text: in front of the
    first colon nothing changes, word characters between that colon and the
    next are a name, the name is replaced, colons included, by the emoji the
    dictionary has for it, and the text behind it is treated in the same
    way. *)
Theorem emojiSupport_first_name
    (getUnicode : jsstring → option jsstring) (pre w post : jsstring)
    (c : N) (u : jsstring) :
  58 ∉ pre →
  w ≠ [] →
  Forall (λ c, is_word c = true) w →
  getUnicode (58 :: w ++ [58]) = Some (c :: u) →
  emojiSupport getUnicode (pre ++ 58 :: w ++ 58 :: post)
  = pre ++ (c :: u) ++ emojiSupport getUnicode post.
Proof.
  intros Hpre Hne Hw Hknown. unfold emojiSupport.
  rewrite replace_names_no_colon by done. f_equal.
  cbn [replace_names N.eqb Pos.eqb].
  rewrite replace_names_word by done.
  cbn [app replace_names is_word N.leb N.eqb N.compare Pos.compare
         Pos.compare_cont Pos.eqb andb orb].
  destruct w as [|d w]; [done|].
  cbn [app]. cbn [app] in Hknown. by rewrite Hknown.
Qed.

End emoji_facts.

Lemma emojiSupport_without_emoji_witness :
  CommentActions.emojiSupport (λ _, None) (lit "well :tada: done")
  = lit "well :tada: done".
Proof.
  apply (emojiSupport_without_emoji (λ _, None)). intros name. by left.
Defined.

Lemma emojiSupport_first_name_witness :
  CommentActions.emojiSupport
    (λ name, if bool_decide (name = lit ":tada:")
             then Some [55356; 57225] else None)
    (lit "well " ++ 58 :: lit "tada" ++ 58 :: lit " :done")
  = lit "well " ++ [55356; 57225]
    ++ CommentActions.emojiSupport
         (λ name, if bool_decide (name = lit ":tada:")
                  then Some [55356; 57225] else None)
         (lit " :done").
Proof.
  apply (emojiSupport_first_name
           (λ name, if bool_decide (name = lit ":tada:")
                    then Some [55356; 57225] else None)
           (lit "well ") (lit "tada") (lit " :done") 55356 [57225]).
  - vm_compute. intros Hin.
    repeat (apply elem_of_cons in Hin as [Hin|Hin]; [discriminate Hin|]).
    by apply elem_of_nil in Hin.
  - vm_compute. discriminate.
  - vm_compute. repeat constructor.
  - vm_compute. reflexivity.
Defined.

(** ** Candidate.jsx *)

Section candidate_facts.
Import Candidate.

Lemma isCached_Some (r : jsstring) (c : t) :
  isCached (Some r) (Some c) = true ↔ id c = Some r.
Proof.
  unfold isCached, cachedCandidateId. rewrite bool_decide_eq_true.
  destruct (id c) as [i|]; simpl; [|done].
  split; [by intros [= ->]|by intros [= ->]].
Qed.

(** X19. What the page of a candidate shows for a route with an id, when it
    renders: the load error when the store has a non-empty one; else
    "Loading..." exactly when the id of the stored candidate is not that of
    the route; else the page of the candidate of the route. "Candidate not
    found" is never shown. *)
Theorem candidate_view (r : jsstring) (candidate : option t) (view : View) :
  render (Some r) candidate = Ok view →
  ∃ c, candidate = Some c
       ∧ match view with
         | LoadError message => loadError c = Some message ∧ message ≠ []
         | Loading =>
             (loadError c = None ∨ loadError c = Some []) ∧ id c ≠ Some r
         | NotFound => False
         | Page i =>
             (loadError c = None ∨ loadError c = Some [])
             ∧ i = r ∧ id c = Some r
         end.
Proof.
  destruct candidate as [c|]; [|done]. intros Hview. exists c.
  split; [done|]. unfold render in Hview.
  assert (∀ v,
            (if negb (isCached (Some r) (Some c)) then Ok Loading
             else match id c with
                  | Some i => Ok (Page i)
                  | None => Ok NotFound
                  end) = Ok v →
            match v with
            | LoadError _ | NotFound => False
            | Loading => id c ≠ Some r
            | Page i => i = r ∧ id c = Some r
            end) as Hrest.
  { intros v Hv.
    destruct (isCached (Some r) (Some c)) eqn:Hcached; simpl in Hv.
    - apply isCached_Some in Hcached. rewrite Hcached in Hv.
      by injection Hv as <-.
    - injection Hv as <-. intros Hid%isCached_Some. congruence. }
  destruct (loadError c) as [[|ch message]|].
  - apply Hrest in Hview. destruct view; try done; split; auto.
  - injection Hview as <-. done.
  - apply Hrest in Hview. destruct view; try done; split; auto.
Qed.

Lemma passes_uncached (r : jsstring) (stores : list (option t))
    (views : list View) (fetched : list (option jsstring)) :
  Forall (λ candidate, isCached (Some r) candidate = false) stores →
  passes (Some (false, Some r)) (Some r) stores = Ok (views, fetched) →
  fetched = [].
Proof.
  intros Hstores. revert views fetched.
  induction Hstores as [|candidate stores Hun _ IH]; intros views fetched;
    cbn [passes].
  - by intros [= _ <-].
  - destruct (render (Some r) candidate) as [view|]; [|done].
    cbn [mbind result_bind]. unfold deps at 1. rewrite Hun.
    destruct (passes _ _ stores) as [[views' fetched']|] eqn:Hrest; [|done].
    cbn [mbind result_bind fst snd]. unfold effect, deps. rewrite Hun.
    rewrite bool_decide_eq_true_2 by done.
    intros [= _ <-]. by apply (IH views').
Qed.

Lemma passes_length prev (route_id : option jsstring)
    (stores : list (option t)) (views : list View)
    (fetched : list (option jsstring)) :
  passes prev route_id stores = Ok (views, fetched) →
  length views = length stores.
Proof.
  revert prev views fetched.
  induction stores as [|candidate stores IH]; intros prev views fetched;
    cbn [passes].
  - by intros [= <- _].
  - destruct (render route_id candidate) as [view|]; [|done].
    cbn [mbind result_bind].
    destruct (passes _ _ stores) as [[views' fetched']|] eqn:Hrest; [|done].
    cbn [mbind result_bind fst snd]. intros [= <- _]. simpl. f_equal.
    by eapply IH.
Qed.

(** X20. While the candidate of the route is not the one in the store, the
    page asks for it once: however often it renders in that time, the
    effect dispatches [fetchCandidate(route.id)] after the first render and
    not again. *)
Theorem one_fetch_while_uncached (r : jsstring) (stores : list (option t))
    (views : list View) (fetched : list (option jsstring)) :
  stores ≠ [] →
  Forall (λ candidate, isCached (Some r) candidate = false) stores →
  passes None (Some r) stores = Ok (views, fetched) →
  fetched = [Some r] ∧ length views = length stores.
Proof.
  intros Hne Hstores Hpasses.
  destruct stores as [|candidate stores]; [done|].
  apply Forall_cons in Hstores as [Hun Hstores].
  cbn [passes] in Hpasses.
  destruct (render (Some r) candidate) as [view|]; [|done].
  cbn [mbind result_bind] in Hpasses. unfold deps at 1 in Hpasses.
  rewrite Hun in Hpasses.
  destruct (passes _ _ stores) as [[views' fetched']|] eqn:Hrest; [|done].
  cbn [mbind result_bind fst snd] in Hpasses.
  unfold effect in Hpasses. rewrite Hun in Hpasses.
  rewrite bool_decide_eq_false_2 in Hpasses by done.
  injection Hpasses as <- <-.
  apply passes_uncached in Hrest as Hnone; [|done]. subst fetched'.
  split; [done|]. simpl. f_equal. by eapply passes_length.
Qed.

End candidate_facts.

Lemma candidate_view_witness :
  ∃ c, Some {| Candidate.id := Some (lit "ZTF21abc");
               Candidate.loadError := None |} = Some c
       ∧ (Candidate.loadError c = None ∨ Candidate.loadError c = Some [])
       ∧ lit "ZTF21abc" = lit "ZTF21abc"
       ∧ Candidate.id c = Some (lit "ZTF21abc").
Proof.
  apply (candidate_view (lit "ZTF21abc")
           (Some {| Candidate.id := Some (lit "ZTF21abc");
                    Candidate.loadError := None |})
           (Candidate.Page (lit "ZTF21abc"))).
  reflexivity.
Defined.

Lemma one_fetch_while_uncached_witness :
  ∃ views fetched,
    Candidate.passes None (Some (lit "ZTF21abc"))
      [ Some {| Candidate.id := None; Candidate.loadError := None |};
        Some {| Candidate.id := Some (lit "ZTF20xyz");
                Candidate.loadError := None |} ]
    = Ok (views, fetched)
    ∧ fetched = [Some (lit "ZTF21abc")]
    ∧ length views = 2%nat.
Proof.
  exists [Candidate.Loading; Candidate.Loading], [Some (lit "ZTF21abc")].
  split; [reflexivity|].
  apply (one_fetch_while_uncached (lit "ZTF21abc")
           [ Some {| Candidate.id := None; Candidate.loadError := None |};
             Some {| Candidate.id := Some (lit "ZTF20xyz");
                     Candidate.loadError := None |} ]
           [Candidate.Loading; Candidate.Loading]
           [Some (lit "ZTF21abc")]).
  - discriminate.
  - repeat constructor.
  - reflexivity.
Defined.

(** ** SourceDesktop.jsx *)

Section chip_label_facts.
Import SourceDesktop.

(** X21. The label of the chip of a group is the first 15 code units of its
    nickname, or of its name when it has no nickname or an empty one: it is
    never longer than that, it is that text itself when the text is not
    longer, and it is empty only when the text is. *)
Theorem chipLabel_spec (group : SavedGroup) :
  chipLabel group = take 15 (shown group)
  ∧ (length (chipLabel group) ≤ 15)%nat
  ∧ ((length (shown group) ≤ 15)%nat → chipLabel group = shown group)
  ∧ (chipLabel group = [] → shown group = []).
Proof.
  assert (chipLabel group = take 15 (shown group)) as Hlabel.
  { unfold chipLabel, shown, substring_0.
    by destruct (nickname group) as [[|c n]|]. }
  rewrite Hlabel. split_and!.
  - done.
  - rewrite length_take. lia.
  - intros Hshort. by apply take_ge.
  - by destruct (shown group).
Qed.

End chip_label_facts.
